(** * Window tiler: the grid-cell arena and the drag controller

    A shallow embedding of [src/components/index.tsx].  The React component
    keeps its state in hooks ([windows], [gridCells], [draggingId],
    [snapIndicator]) and refs ([dragOffset], [dragPos]); here the state is a
    record and every handler is a function from the state (and the data of
    the event) to the next state.

    Conventions of the embedding:
    - a JavaScript [number] is an exact rational ([Q]); [/ 2] is the
      division of [Q], [Math.min] and [Math.max] are [Qmin] and [Qmax];
    - an optional field ([windowId?], [parentId?], [children?]) is an
      [option]; the truthiness test of JavaScript on such a field is
      [truthy]: [undefined] and the empty string are falsy;
    - [generateId()], [randomColor()] and [randomPosition()] draw from
      [Math.random]: their results are arguments of the handler that calls
      them;
    - [window.innerWidth] and [window.innerHeight] are fields of the state,
      written by the resize event only;
    - [findInCell] recurses through the ids stored in [children]; the
      embedding gives it fuel, and an exhausted fuel is a result of its own
      ([None] at the outer level), never confused with "no cell found". *)

From Stdlib Require Import QArith Qminmax Lqa List Permutation String Bool Lia.
Import ListNotations.
Open Scope string_scope.
Open Scope list_scope.
Open Scope Q_scope.

(** ** Numbers and comparisons *)

Definition Qltb (a b : Q) : bool := negb (Qle_bool b a).

(** ** Data model *)

Inductive Edge : Type := Left | Right | Top | Bottom.

(** [type SnapPosition = 'left' | 'right' | 'top' | 'bottom' | null] *)
Definition SnapPosition : Type := option Edge.

Definition Edge_eqb (a b : Edge) : bool :=
  match a, b with
  | Left, Left | Right, Right | Top, Top | Bottom, Bottom => true
  | _, _ => false
  end.

Record Point : Type := mkPoint { px : Q; py : Q }.

Record Size : Type := mkSize { sw : Q; sh : Q }.

Module GridCell.
Record t : Type := mk {
  id : string;
  x : Q;
  y : Q;
  width : Q;
  height : Q;
  windowId : option string;
  children : option (list string);
  parentId : option string
}.
End GridCell.

Module WindowData.
(** The optional [children] field of the interface is never read nor
    written by the component and is left out. *)
Record t : Type := mk {
  id : string;
  color : string;
  position : Point;
  size : Size;
  snapped : SnapPosition;
  parentId : option string
}.
End WindowData.

Definition WINDOW_WIDTH : Q := 300.

Definition WINDOW_HEIGHT : Q := 200.

Definition SNAP_THRESHOLD : Q := 30.

(** Truthiness of an optional string: [undefined] and [''] are falsy. *)
Definition truthy (o : option string) : bool :=
  match o with
  | Some s => negb (String.eqb s "")
  | None => false
  end.

(** [a === b] where [a] is an optional string and [b] a string. *)
Definition is_id (o : option string) (s : string) : bool :=
  match o with
  | Some t => String.eqb t s
  | None => false
  end.

(** [a === b] on two optional strings. *)
Definition opt_eqb (a b : option string) : bool :=
  match a, b with
  | Some s, Some t => String.eqb s t
  | None, None => true
  | _, _ => false
  end.

Definition byId (i : string) (c : GridCell.t) : bool :=
  String.eqb (GridCell.id c) i.

Definition byWindow (w : string) (c : GridCell.t) : bool :=
  is_id (GridCell.windowId c) w.

(** ** The partition tree, stored as an arena of cells *)

Section Locate.
Variable gridCells : list GridCell.t.
Variables ptx pty : Q.

Definition inCell (cell : GridCell.t) : bool :=
  Qle_bool (GridCell.x cell) ptx
  && Qltb ptx (GridCell.x cell + GridCell.width cell)
  && Qle_bool (GridCell.y cell) pty
  && Qltb pty (GridCell.y cell + GridCell.height cell).

(** The loop over [cell.children] of [findInCell]: the first child
    whose search finds a cell gives the result, [cell] itself is the
    result when none does.  [search] is the recursive call.  The outer
    [option] is the fuel ([None] when it ran out), the inner one the
    [GridCell | null] of the source. *)
Fixpoint overChildren (search : GridCell.t -> option (option GridCell.t))
    (cell : GridCell.t) (ids : list string)
  : option (option GridCell.t) :=
  match ids with
  | [] => Some (Some cell)
  | childId :: rest =>
      match find (byId childId) gridCells with
      | Some child =>
          match search child with
          | None => None
          | Some (Some result) => Some (Some result)
          | Some None => overChildren search cell rest
          end
      | None => overChildren search cell rest
      end
  end.

Fixpoint findInCell (fuel : nat) (cell : GridCell.t)
  : option (option GridCell.t) :=
  match fuel with
  | O => None
  | S fuel' =>
      if inCell cell then
        match GridCell.children cell with
        | Some (childId :: rest) =>
            overChildren (findInCell fuel') cell (childId :: rest)
        | _ => Some (Some cell)
        end
      else Some None
  end.

Definition findGridCell : option (option GridCell.t) :=
  match find (byId "root") gridCells with
  | Some root => findInCell (S (List.length gridCells)) root
  | None => Some None
  end.
End Locate.

(** The two cells [splitGridCell] pushes to [newCells].  [id1] and [id2]
    are the two results of [generateId()], in the order of the calls: the
    left (or top) cell first. *)
Definition newCellsOf (cell : GridCell.t) (snapPosition : SnapPosition)
    (windowId : string) (id1 id2 : string) : list GridCell.t :=
  let existingWindowId := GridCell.windowId cell in
  let occupant (e : Edge) :=
    match snapPosition with
    | Some s => if Edge_eqb s e then Some windowId else existingWindowId
    | None => existingWindowId
    end in
  match snapPosition with
  | Some Left | Some Right =>
      let leftCell :=
        GridCell.mk id1
          (GridCell.x cell) (GridCell.y cell)
          (GridCell.width cell / 2) (GridCell.height cell)
          (occupant Left) None (Some (GridCell.id cell)) in
      let rightCell :=
        GridCell.mk id2
          (GridCell.x cell + GridCell.width cell / 2) (GridCell.y cell)
          (GridCell.width cell / 2) (GridCell.height cell)
          (occupant Right) None (Some (GridCell.id cell)) in
      [leftCell; rightCell]
  | _ =>
      let topCell :=
        GridCell.mk id1
          (GridCell.x cell) (GridCell.y cell)
          (GridCell.width cell) (GridCell.height cell / 2)
          (occupant Top) None (Some (GridCell.id cell)) in
      let bottomCell :=
        GridCell.mk id2
          (GridCell.x cell) (GridCell.y cell + GridCell.height cell / 2)
          (GridCell.width cell) (GridCell.height cell / 2)
          (occupant Bottom) None (Some (GridCell.id cell)) in
      [topCell; bottomCell]
  end.

(** [{ ...cell, windowId: undefined, children: newCells.map(c => c.id) }] *)
Definition splitParent (cell : GridCell.t) (newCells : list GridCell.t)
  : GridCell.t :=
  GridCell.mk (GridCell.id cell)
    (GridCell.x cell) (GridCell.y cell)
    (GridCell.width cell) (GridCell.height cell)
    None (Some (map GridCell.id newCells)) (GridCell.parentId cell).

(** The envelope [mergeGridCells] gives the parent: the min/max of the
    parent and the sibling, the occupant of the sibling, no children. *)
Definition mergedParent (parent sibling : GridCell.t) : GridCell.t :=
  let minX := Qmin (GridCell.x parent) (GridCell.x sibling) in
  let minY := Qmin (GridCell.y parent) (GridCell.y sibling) in
  GridCell.mk (GridCell.id parent)
    minX minY
    (Qmax (GridCell.x parent + GridCell.width parent)
          (GridCell.x sibling + GridCell.width sibling)
     - minX)
    (Qmax (GridCell.y parent + GridCell.height parent)
          (GridCell.y sibling + GridCell.height sibling)
     - minY)
    (GridCell.windowId sibling) None (GridCell.parentId parent).

Section Split.
Variable gridCells : list GridCell.t.

Definition splitGridCell (cellId : string) (snapPosition : SnapPosition)
    (windowId : string) (id1 id2 : string) : list GridCell.t :=
  match find (byId cellId) gridCells with
  | None => gridCells
  | Some cell =>
      let newCells := newCellsOf cell snapPosition windowId id1 id2 in
      let updatedParent := splitParent cell newCells in
      map (fun c => if byId cellId c then updatedParent else c) gridCells
        ++ newCells
  end.

Definition mergeGridCells (cellId : string) : list GridCell.t :=
  match find (byId cellId) gridCells with
  | None => gridCells
  | Some cell =>
      if negb (truthy (GridCell.parentId cell)) then gridCells
      else
        match find (fun c => opt_eqb (Some (GridCell.id c))
                               (GridCell.parentId cell)) gridCells with
        | None => gridCells
        | Some parent =>
            match find (fun c =>
                          opt_eqb (GridCell.parentId c) (GridCell.parentId cell)
                          && negb (byId cellId c)) gridCells with
            | None => gridCells
            | Some sibling =>
                let updatedParent := mergedParent parent sibling in
                map (fun c =>
                       if opt_eqb (Some (GridCell.id c)) (GridCell.parentId cell)
                       then updatedParent else c)
                  (filter (fun c => negb (byId cellId c)
                                    && negb (byId (GridCell.id sibling) c))
                     gridCells)
            end
        end
  end.
End Split.

(** ** The component state and its handlers *)

Record State : Type := mkState {
  windows : list WindowData.t;
  draggingId : option string;
  dragOffset : Point;
  snapIndicator : SnapPosition;
  dragPos : Point;
  gridCells : list GridCell.t;
  innerWidth : Q;
  innerHeight : Q
}.

Definition rootCell (w h : Q) : GridCell.t :=
  GridCell.mk "root" 0 0 w h None None None.

Definition initialState (w h : Q) : State :=
  mkState [] None (mkPoint 0 0) None (mkPoint 0 0) [rootCell w h] w h.

Definition setWindows (st : State) (ws : list WindowData.t) : State :=
  mkState ws (draggingId st) (dragOffset st) (snapIndicator st) (dragPos st)
    (gridCells st) (innerWidth st) (innerHeight st).

Definition setGridCells (st : State) (cells : list GridCell.t) : State :=
  mkState (windows st) (draggingId st) (dragOffset st) (snapIndicator st)
    (dragPos st) cells (innerWidth st) (innerHeight st).

Definition winById (i : string) (w : WindowData.t) : bool :=
  String.eqb (WindowData.id w) i.

(** [id], [color] and [position] are what [generateId], [randomColor] and
    [randomPosition] returned. *)
Definition addWindow (st : State) (id color : string) (position : Point)
  : State :=
  let newWindow :=
    WindowData.mk id color position (mkSize WINDOW_WIDTH WINDOW_HEIGHT)
      None None in
  setWindows st (windows st ++ [newWindow]).

Definition onDragStart (st : State) (e : Point) (id : string) : State :=
  match find (winById id) (windows st) with
  | None => st
  | Some win =>
      mkState (windows st) (Some id)
        (mkPoint (px e - px (WindowData.position win))
                 (py e - py (WindowData.position win)))
        (snapIndicator st) e (gridCells st) (innerWidth st) (innerHeight st)
  end.

(** [dragWin?.parentId ? gridCells.find(c => c.id === dragWin.parentId)
    : undefined] *)
Definition parentCellOf (cells : list GridCell.t)
    (win : option WindowData.t) : option GridCell.t :=
  match win with
  | Some w =>
      if truthy (WindowData.parentId w)
      then find (fun c => opt_eqb (Some (GridCell.id c)) (WindowData.parentId w))
             cells
      else None
  | None => None
  end.

Definition winParentId (win : option WindowData.t) : option string :=
  match win with
  | Some w => WindowData.parentId w
  | None => None
  end.

(** [Math.min(Math.max(v, lo), Math.max(lo, hi))] *)
Definition clampAxis (v lo hi : Q) : Q := Qmin (Qmax v lo) (Qmax lo hi).

(** The position shown during a drag: the candidate [(newX, newY)],
    clamped into [clampCell] when there is one. *)
Definition clampPosition (clampCell : option GridCell.t)
    (dragWin : option WindowData.t) (newX newY : Q) : Point :=
  match clampCell with
  | Some c =>
      let winW := match dragWin with
                  | Some w => sw (WindowData.size w)
                  | None => WINDOW_WIDTH
                  end in
      let winH := match dragWin with
                  | Some w => sh (WindowData.size w)
                  | None => WINDOW_HEIGHT
                  end in
      let maxX := GridCell.x c + GridCell.width c - winW in
      let maxY := GridCell.y c + GridCell.height c - winH in
      mkPoint (clampAxis newX (GridCell.x c) maxX)
              (clampAxis newY (GridCell.y c) maxY)
  | None => mkPoint newX newY
  end.

(** The four tests of the screen-edge snap, in the order of the source. *)
Definition screenEdge (newX newY vw vh : Q) : SnapPosition :=
  if Qltb newX SNAP_THRESHOLD then Some Left
  else if Qltb (vw - SNAP_THRESHOLD) (newX + WINDOW_WIDTH) then Some Right
  else if Qltb newY SNAP_THRESHOLD then Some Top
  else if Qltb (vh - SNAP_THRESHOLD) (newY + WINDOW_HEIGHT) then Some Bottom
  else None.

(** [e.clientX >= c.x && e.clientX <= c.x + c.width && ...], [true]
    without a parent cell. *)
Definition cursorInParentBounds (parentCell : option GridCell.t) (e : Point)
  : bool :=
  match parentCell with
  | Some c =>
      Qle_bool (GridCell.x c) (px e)
      && Qle_bool (px e) (GridCell.x c + GridCell.width c)
      && Qle_bool (GridCell.y c) (py e)
      && Qle_bool (py e) (GridCell.y c + GridCell.height c)
  | None => true
  end.

Definition horizontalEdge (relativeX cellWidth : Q) : SnapPosition :=
  if Qltb relativeX SNAP_THRESHOLD then Some Left
  else if Qltb (cellWidth - SNAP_THRESHOLD) relativeX then Some Right
  else None.

Definition verticalEdge (relativeY cellHeight : Q) : SnapPosition :=
  if Qltb relativeY SNAP_THRESHOLD then Some Top
  else if Qltb (cellHeight - SNAP_THRESHOLD) relativeY then Some Bottom
  else None.

Definition anyEdge (relativeX relativeY cellWidth cellHeight : Q)
  : SnapPosition :=
  match horizontalEdge relativeX cellWidth with
  | Some s => Some s
  | None => verticalEdge relativeY cellHeight
  end.

(** The indicator inside the cell under the pointer. *)
Definition cellEdge (targetCell : GridCell.t) (e : Point) : SnapPosition :=
  let cellWidth := GridCell.width targetCell in
  let cellHeight := GridCell.height targetCell in
  let relativeX := px e - GridCell.x targetCell in
  let relativeY := py e - GridCell.y targetCell in
  if String.eqb (GridCell.id targetCell) "root"
  then anyEdge relativeX relativeY cellWidth cellHeight
  else if Qltb cellHeight cellWidth then horizontalEdge relativeX cellWidth
  else if Qltb cellWidth cellHeight then verticalEdge relativeY cellHeight
  else anyEdge relativeX relativeY cellWidth cellHeight.

(** The [else] branch of the indicator chain of [onDrag]. *)
Definition gridIndicator (cells : list GridCell.t)
    (parentCell : option GridCell.t) (e : Point) : option SnapPosition :=
  match findGridCell cells (px e) (py e) with
  | None => None
  | Some targetCell =>
      Some match targetCell with
           | Some tc =>
               if cursorInParentBounds parentCell e then cellEdge tc e
               else None
           | None => None
           end
  end.

Definition moveWindow (d : string) (p : Point) (w : WindowData.t)
  : WindowData.t :=
  if winById d w
  then WindowData.mk (WindowData.id w) (WindowData.color w) p
         (WindowData.size w) None (WindowData.parentId w)
  else w.

(** [None]: the search of [findGridCell] did not return. *)
Definition onDrag (st : State) (e : Point) : option State :=
  match draggingId st with
  | Some d =>
      if negb (truthy (Some d)) then Some st
      else
        let dragWin := find (winById d) (windows st) in
        let currentCell := find (byWindow d) (gridCells st) in
        let parentCell := parentCellOf (gridCells st) dragWin in
        let clampCell := match parentCell with
                         | Some c => Some c
                         | None => currentCell
                         end in
        let newPos :=
          clampPosition clampCell dragWin
            (px e - px (dragOffset st)) (py e - py (dragOffset st)) in
        let allowScreenEdgeSnap := negb (truthy (winParentId dragWin)) in
        let chain :=
          match (if allowScreenEdgeSnap
                 then screenEdge (px newPos) (py newPos)
                        (innerWidth st) (innerHeight st)
                 else None) with
          | Some s => Some (Some s)
          | None => gridIndicator (gridCells st) parentCell e
          end in
        match chain with
        | None => None
        | Some indicator =>
            Some (mkState (map (moveWindow d newPos) (windows st))
                    (draggingId st) (dragOffset st) indicator e
                    (gridCells st) (innerWidth st) (innerHeight st))
        end
  | None => Some st
  end.

(** [newX < T || newX + W > innerWidth - T || newY < T || ...] *)
Definition isScreenEdgeSnapCandidate (newX newY vw vh : Q) : bool :=
  Qltb newX SNAP_THRESHOLD
  || Qltb (vw - SNAP_THRESHOLD) (newX + WINDOW_WIDTH)
  || Qltb newY SNAP_THRESHOLD
  || Qltb (vh - SNAP_THRESHOLD) (newY + WINDOW_HEIGHT).

(** [win.parentId ? false : isScreenEdgeSnapCandidate] *)
Definition isScreenEdgeSnap (win : WindowData.t) (newX newY vw vh : Q)
  : bool :=
  if truthy (WindowData.parentId win) then false
  else isScreenEdgeSnapCandidate newX newY vw vh.

(** The half-viewport rectangle of an edge: the [switch] of [onDragEnd]. *)
Definition edgeRect (s : Edge) (vw vh : Q) : Point * Size :=
  match s with
  | Left => (mkPoint 0 0, mkSize (vw / 2) vh)
  | Right => (mkPoint (vw / 2) 0, mkSize (vw / 2) vh)
  | Top => (mkPoint 0 0, mkSize vw (vh / 2))
  | Bottom => (mkPoint 0 (vh / 2), mkSize vw (vh / 2))
  end.

Definition snapToEdge (d : string) (s : Edge) (vw vh : Q)
    (w : WindowData.t) : WindowData.t :=
  if winById d w
  then WindowData.mk (WindowData.id w) (WindowData.color w)
         (fst (edgeRect s vw vh)) (snd (edgeRect s vw vh)) (Some s) None
  else w.

Definition dockInCell (d : string) (s : Edge) (newCell : GridCell.t)
    (w : WindowData.t) : WindowData.t :=
  if winById d w
  then WindowData.mk (WindowData.id w) (WindowData.color w)
         (mkPoint (GridCell.x newCell) (GridCell.y newCell))
         (mkSize (GridCell.width newCell) (GridCell.height newCell))
         (Some s) (GridCell.parentId newCell)
  else w.

(** The state after [setDraggingId(null); setSnapIndicator(null)]. *)
Definition endDrag (st : State) : State :=
  mkState (windows st) None (dragOffset st) None (dragPos st)
    (gridCells st) (innerWidth st) (innerHeight st).

(** [id1] and [id2] are the ids [splitGridCell] draws when it splits.
    [None]: the search of [findGridCell] did not return. *)
Definition onDragEnd (st : State) (e : Point) (id1 id2 : string)
  : option State :=
  match draggingId st with
  | Some d =>
      if negb (truthy (Some d)) then Some st
      else
        match find (winById d) (windows st) with
        | None => Some st
        | Some win =>
            match snapIndicator st with
            | Some s =>
                let newX := px e - px (dragOffset st) in
                let newY := py e - py (dragOffset st) in
                if isScreenEdgeSnap win newX newY
                     (innerWidth st) (innerHeight st)
                then
                  Some (endDrag
                          (setWindows st
                             (map (snapToEdge d s (innerWidth st)
                                     (innerHeight st)) (windows st))))
                else
                  let parentCell :=
                    parentCellOf (gridCells st) (Some win) in
                  match findGridCell (gridCells st) (px e) (py e) with
                  | None => None
                  | Some (Some targetCell) =>
                      if cursorInParentBounds parentCell e then
                        let newGridCells :=
                          splitGridCell (gridCells st)
                            (GridCell.id targetCell) (Some s) d id1 id2 in
                        let st1 := setGridCells st newGridCells in
                        match find (byWindow d) newGridCells with
                        | Some newCell =>
                            Some (endDrag
                                    (setWindows st1
                                       (map (dockInCell d s newCell)
                                          (windows st1))))
                        | None => Some (endDrag st1)
                        end
                      else Some (endDrag st)
                  | Some None => Some (endDrag st)
                  end
            | None => Some (endDrag st)
            end
        end
  | None => Some st
  end.

Definition resizeRoot (w h : Q) (cell : GridCell.t) : GridCell.t :=
  if byId "root" cell
  then GridCell.mk (GridCell.id cell) (GridCell.x cell) (GridCell.y cell)
         w h (GridCell.windowId cell) (GridCell.children cell)
         (GridCell.parentId cell)
  else cell.

(** The viewport takes the size [w] x [h] and the resize event fires. *)
Definition handleResize (st : State) (w h : Q) : State :=
  mkState (windows st) (draggingId st) (dragOffset st) (snapIndicator st)
    (dragPos st) (map (resizeRoot w h) (gridCells st)) w h.

(** [c.windowId && c.windowId !== id] *)
Definition otherOccupant (id : string) (c : GridCell.t) : bool :=
  truthy (GridCell.windowId c) && negb (is_id (GridCell.windowId c) id).

Definition rehome (remainingCell : GridCell.t) (w : WindowData.t)
  : WindowData.t :=
  if opt_eqb (Some (WindowData.id w)) (GridCell.windowId remainingCell)
  then WindowData.mk (WindowData.id w) (WindowData.color w)
         (mkPoint (GridCell.x remainingCell) (GridCell.y remainingCell))
         (mkSize (GridCell.width remainingCell)
                 (GridCell.height remainingCell))
         None None
  else w.

(** The part [closeWindow] and [moveWindowOut] share: merge the cell of
    the window and give the first other occupied cell's window the
    rectangle of that cell. *)
Definition releaseCell (st : State) (id : string) : State :=
  match find (byWindow id) (gridCells st) with
  | Some cell =>
      let newGridCells := mergeGridCells (gridCells st) (GridCell.id cell) in
      let st1 := setGridCells st newGridCells in
      match find (otherOccupant id) newGridCells with
      | Some remainingCell =>
          setWindows st1 (map (rehome remainingCell) (windows st1))
      | None => st1
      end
  | None => st
  end.

Definition closeWindow (st : State) (id : string) : State :=
  let st1 := releaseCell st id in
  setWindows st1 (filter (fun w => negb (winById id w)) (windows st1)).

Definition floatWindow (id : string) (p : Point) (w : WindowData.t)
  : WindowData.t :=
  if winById id w
  then WindowData.mk (WindowData.id w) (WindowData.color w) p
         (mkSize WINDOW_WIDTH WINDOW_HEIGHT) None None
  else w.

(** [position] is what [randomPosition] returned. *)
Definition moveWindowOut (st : State) (id : string) (position : Point)
  : State :=
  match find (winById id) (windows st) with
  | None => st
  | Some win =>
      match WindowData.snapped win with
      | None => st
      | Some _ =>
          let st1 := releaseCell st id in
          setWindows st1 (map (floatWindow id position) (windows st1))
      end
  end.

(** ** Events and reachable states *)

Inductive Event : Type :=
| AddWindow (id color : string) (position : Point)
| MouseDown (e : Point) (id : string)
| MouseMove (e : Point)
| MouseUp (e : Point) (id1 id2 : string)
| Resize (w h : Q)
| CloseWindow (id : string)
| MoveWindowOut (id : string) (position : Point).

Definition handle (st : State) (ev : Event) : option State :=
  match ev with
  | AddWindow id color position => Some (addWindow st id color position)
  | MouseDown e id => Some (onDragStart st e id)
  | MouseMove e => onDrag st e
  | MouseUp e id1 id2 => onDragEnd st e id1 id2
  | Resize w h => Some (handleResize st w h)
  | CloseWindow id => Some (closeWindow st id)
  | MoveWindowOut id position => Some (moveWindowOut st id position)
  end.

(** [generateId] returns the decimal digits of a random number (the text
    of the number from its third character on): never the text [root]. *)
Definition generated (ev : Event) : Prop :=
  match ev with
  | MouseUp _ id1 id2 => id1 <> "root" /\ id2 <> "root"
  | _ => True
  end.

Fixpoint run (st : State) (evs : list Event) : option State :=
  match evs with
  | [] => Some st
  | ev :: rest =>
      match handle st ev with
      | Some st' => run st' rest
      | None => None
      end
  end.

Inductive reachable (w h : Q) : State -> Prop :=
| reach_init : reachable w h (initialState w h)
| reach_step st ev st' :
    reachable w h st -> generated ev -> handle st ev = Some st' ->
    reachable w h st'.

(** ** Vocabulary of the specification *)

(** A leaf has no child: [children] is absent or empty, the test of
    [findInCell]. *)
Definition isLeaf (c : GridCell.t) : bool :=
  match GridCell.children c with
  | Some (_ :: _) => false
  | _ => true
  end.

Definition childIds (c : GridCell.t) : list string :=
  match GridCell.children c with
  | Some ids => ids
  | None => []
  end.

Definition cellIds (cells : list GridCell.t) : list string :=
  map GridCell.id cells.

(** The occupant a cell contributes as a leaf. *)
Definition occupantOf (c : GridCell.t) : list string :=
  if isLeaf c
  then match GridCell.windowId c with
       | Some w => [w]
       | None => []
       end
  else [].

(** The occupants of the leaves, in the order of the arena. *)
Definition leafOccupants (cells : list GridCell.t) : list string :=
  flat_map occupantOf cells.

(** Same rectangle, as rationals. *)
Definition sameRect (a b : GridCell.t) : Prop :=
  GridCell.x a == GridCell.x b /\ GridCell.y a == GridCell.y b
  /\ GridCell.width a == GridCell.width b
  /\ GridCell.height a == GridCell.height b.

(** The same cell of the same tree: ids, links and occupant equal, the
    rectangles equal as rationals. *)
Definition cellEquiv (a b : GridCell.t) : Prop :=
  GridCell.id a = GridCell.id b
  /\ sameRect a b
  /\ GridCell.windowId a = GridCell.windowId b
  /\ childIds a = childIds b
  /\ GridCell.parentId a = GridCell.parentId b.

(** [inner] lies within [outer]; no sign is asked of the sizes. *)
Definition within (inner outer : GridCell.t) : Prop :=
  GridCell.x outer <= GridCell.x inner
  /\ GridCell.x inner + GridCell.width inner
     <= GridCell.x outer + GridCell.width outer
  /\ GridCell.y outer <= GridCell.y inner
  /\ GridCell.y inner + GridCell.height inner
     <= GridCell.y outer + GridCell.height outer.

(** The child the new occupant goes to: the first drawn id for [left]
    and [top], the second for [right] and [bottom]. *)
Definition edgeSide (e : Edge) (id1 id2 : string) : string :=
  match e with
  | Left | Top => id1
  | Right | Bottom => id2
  end.

Definition otherSide (e : Edge) (id1 id2 : string) : string :=
  match e with
  | Left | Top => id2
  | Right | Bottom => id1
  end.

(** ** Splitting a cell *)

(** C8, as the specification states it: [splitGridCell] returns the
    arena unchanged when the id names no cell or names an internal cell. *)
Definition splitRejectsNonLeaf : Prop :=
  forall cells cellId s W id1 id2,
    (find (byId cellId) cells = None
     \/ exists c, find (byId cellId) cells = Some c /\ isLeaf c = false) ->
    splitGridCell cells cellId s W id1 id2 = cells.

(** An arena whose root is internal: the tree after one split. *)
Definition splitOnce : list GridCell.t :=
  [ GridCell.mk "root" 0 0 1000 800 None (Some ["21"; "22"]) None;
    GridCell.mk "21" 0 0 500 800 None None (Some "root");
    GridCell.mk "22" 500 0 500 800 (Some "7") None (Some "root") ].

(** ** Pointer moves during a drag *)

(** The window being dragged, as [onDrag] looks it up. *)
Definition dragWinOf (st : State) (d : string) : option WindowData.t :=
  find (winById d) (windows st).

(** [parentCell ?? currentCell] for the window [d]. *)
Definition clampCellOf (st : State) (d : string) : option GridCell.t :=
  match parentCellOf (gridCells st) (dragWinOf st d) with
  | Some c => Some c
  | None => find (byWindow d) (gridCells st)
  end.

(** [dragWin?.size.width ?? WINDOW_WIDTH] and the like for the height. *)
Definition dragSizeOf (st : State) (d : string) : Size :=
  match dragWinOf st d with
  | Some w => WindowData.size w
  | None => mkSize WINDOW_WIDTH WINDOW_HEIGHT
  end.

(** The candidate position: the pointer minus the offset. *)
Definition candidateOf (st : State) (e : Point) : Point :=
  mkPoint (px e - px (dragOffset st)) (py e - py (dragOffset st)).

(** The position [onDrag] gives the window [d]. *)
Definition shownPosition (st : State) (e : Point) (d : string) : Point :=
  clampPosition (clampCellOf st d) (dragWinOf st d)
    (px (candidateOf st e)) (py (candidateOf st e)).

(** [v] is held in [lo .. max lo hi]: the clamp of one axis. *)
Definition heldIn (v lo hi : Q) : Prop := lo <= v /\ v <= Qmax lo hi.


(** ** Scenarios: event sequences from the initial state, viewport 1000 x 800 *)

Definition stateAfter (evs : list Event) : State :=
  match run (initialState 1000 800) evs with
  | Some st => st
  | None => initialState 1000 800
  end.

(** A window is created and grabbed by its title bar. *)
Definition grabEvents : list Event :=
  [ AddWindow "7" "#abcdef" (mkPoint 100 100);
    MouseDown (mkPoint 350 120) "7" ].

(** A window is created, dropped on the left screen edge (it becomes
    500 x 800) and grabbed again at the right end of its title bar. *)
Definition snapLeftEvents : list Event :=
  [ AddWindow "7" "#abcdef" (mkPoint 100 100);
    MouseDown (mkPoint 150 110) "7";
    MouseMove (mkPoint 60 20);
    MouseUp (mkPoint 60 20) "11" "12";
    MouseDown (mkPoint 450 10) "7" ].

(** ... and dropped near the right edge of the root cell: the root is
    split, the window occupies the right half, cell 22. *)
Definition dockEvents : list Event :=
  snapLeftEvents
  ++ [ MouseMove (mkPoint 990 400);
       MouseUp (mkPoint 990 400) "21" "22" ].

(** The docked window is grabbed again and dropped near the top of the
    empty left half, cell 21. *)
Definition redockEvents : list Event :=
  dockEvents
  ++ [ MouseDown (mkPoint 600 10) "7";
       MouseMove (mkPoint 490 20);
       MouseUp (mkPoint 490 20) "31" "32" ].

(** The viewport grows; a second window is dropped near the bottom of
    cell 22, which is split: window 7 above (cell 41), window 8 below
    (cell 42). *)
Definition twoDockedEvents : list Event :=
  dockEvents
  ++ [ Resize 1000 1000;
       AddWindow "8" "#123456" (mkPoint 600 300);
       MouseDown (mkPoint 750 310) "8";
       MouseMove (mkPoint 600 780);
       MouseUp (mkPoint 600 780) "41" "42" ].

(** The viewport shrinks under the split root. *)
Definition shrinkEvents : list Event :=
  dockEvents ++ [ Resize 600 400 ].

(** ** The claims of the specification that the code does not meet *)

(** C1, as stated: no window id is the occupant of two leaves. *)
Definition occupantsDistinct (cells : list GridCell.t) : Prop :=
  NoDup (leafOccupants cells).

(** C4, as stated, for a window [W] that occupies a cell: the arena is
    merged at that cell, the occupant [S] of the merged leaf takes its
    rectangle and refers to it, and [W] leaves the registry. *)
Definition closeRehomesDocked : Prop :=
  forall st W cell p merged S w',
    find (byWindow W) (gridCells st) = Some cell ->
    GridCell.parentId cell = Some p ->
    find (byId p) (gridCells (closeWindow st W)) = Some merged ->
    GridCell.windowId merged = Some S ->
    find (winById S) (windows (closeWindow st W)) = Some w' ->
    gridCells (closeWindow st W)
    = mergeGridCells (gridCells st) (GridCell.id cell)
    /\ WindowData.position w'
       = mkPoint (GridCell.x merged) (GridCell.y merged)
    /\ WindowData.size w'
       = mkSize (GridCell.width merged) (GridCell.height merged)
    /\ WindowData.parentId w' = Some (GridCell.id merged).

(** C5, as stated, for a window without parent reference: the position
    shown is held in the viewport. *)
Definition clampsFreeIntoViewport : Prop :=
  forall st e st' d,
    draggingId st = Some d -> d <> "" ->
    truthy (winParentId (dragWinOf st d)) = false ->
    onDrag st e = Some st' ->
    Forall (fun w' =>
              WindowData.id w' = d ->
              heldIn (px (WindowData.position w')) 0
                (innerWidth st - sw (WindowData.size w'))
              /\ heldIn (py (WindowData.position w')) 0
                   (innerHeight st - sh (WindowData.size w')))
      (windows st').

(** C6, as stated: a pointer move leaves the tree, and the size, the
    snapped tag and the parent reference of every window, as they were. *)
Definition dragKeepsDockState : Prop :=
  forall st e st',
    onDrag st e = Some st' ->
    gridCells st' = gridCells st
    /\ Forall2 (fun w w' =>
                  WindowData.size w' = WindowData.size w
                  /\ WindowData.snapped w' = WindowData.snapped w
                  /\ WindowData.parentId w' = WindowData.parentId w)
         (windows st) (windows st').

(** The rectangle of the root cell, when there is one. *)
Definition rootOf (st : State) : option GridCell.t :=
  find (byId "root") (gridCells st).

Definition sameRoot (st st' : State) : Prop :=
  match rootOf st, rootOf st' with
  | Some r, Some r' => sameRect r' r
  | _, _ => False
  end.

Definition isResize (ev : Event) : bool :=
  match ev with
  | Resize _ _ => true
  | _ => false
  end.

(** C9, as stated: in a reachable state the root exists, and no event
    but the resize changes its rectangle. *)
Definition rootOnlyResized : Prop :=
  forall w h st ev st',
    reachable w h st -> generated ev -> handle st ev = Some st' ->
    isResize ev = false ->
    sameRoot st st'.

(** ** C9: the root cell *)

(** The invariant behind the root: some cell is called [root], and a cell
    called [root] has no parent reference. *)
Definition rootInv (cells : list GridCell.t) : Prop :=
  (exists r, find (byId "root") cells = Some r)
  /\ (forall c, In c cells -> GridCell.id c = "root" ->
                GridCell.parentId c = None).

(** Every cell that names the root as its parent lies within it. *)
Definition childrenWithinRoot (cells : list GridCell.t) : Prop :=
  forall r c,
    find (byId "root") cells = Some r -> In c cells ->
    GridCell.parentId c = Some "root" -> within c r.

(** ** C10: the screen-edge test and the size of the window *)

(** For comparison only, not in the source: the screen-edge test with the
    size of the window in place of the constants 300 and 200. *)
Definition isScreenEdgeSnapCandidateSized (size : Size)
    (newX newY vw vh : Q) : bool :=
  Qltb newX SNAP_THRESHOLD
  || Qltb (vw - SNAP_THRESHOLD) (newX + sw size)
  || Qltb newY SNAP_THRESHOLD
  || Qltb (vh - SNAP_THRESHOLD) (newY + sh size).

(** The four inequalities of the screen-edge test, constants written out. *)
Definition nearScreenEdge (newX newY vw vh : Q) : Prop :=
  newX < 30 \/ vw - 30 < newX + 300 \/ newY < 30 \/ vh - 30 < newY + 200.

(** ** The theorems at concrete inputs *)

(** The docked window of [dockEvents], grabbed by its title bar. *)
Definition dockedGrabEvents : list Event :=
  dockEvents ++ [ MouseDown (mkPoint 600 10) "7" ].

Definition cell21 : GridCell.t :=
  GridCell.mk "21" 0 0 500 800 None None (Some "root").


Definition cell41 : GridCell.t :=
  GridCell.mk "41" (1000 # 2) 0 (1000 # 2) (800 # 2) (Some "7") None
    (Some "22").

(** ** The search of [findGridCell] returns *)

(** The children of a cell come later in the arena: no child id of a
    cell is the id of that cell, of a cell before it, or in [seen]. *)
Fixpoint forwardFrom (seen : list string) (cells : list GridCell.t) : Prop :=
  match cells with
  | [] => True
  | c :: rest =>
      (forall k, In k (childIds c) -> ~ In k seen /\ k <> GridCell.id c)
      /\ forwardFrom (GridCell.id c :: seen) rest
  end.

Definition forward (cells : list GridCell.t) : Prop := forwardFrom [] cells.

(** The two ids drawn at the end of a drag are new to the arena. *)
Definition freshIds (st : State) (ev : Event) : Prop :=
  match ev with
  | MouseUp _ id1 id2 =>
      ~ In id1 (cellIds (gridCells st)) /\ ~ In id2 (cellIds (gridCells st))
  | _ => True
  end.

(** The states reached when [generateId] never repeats an id. *)
Inductive reachableFresh (w h : Q) : State -> Prop :=
| fresh_init : reachableFresh w h (initialState w h)
| fresh_step st ev st' :
    reachableFresh w h st -> freshIds st ev -> handle st ev = Some st' ->
    reachableFresh w h st'.

(** ** The snap indicator as it is drawn *)

(** What the component draws for the snap indicator: the fixed half of
    the viewport on the side [s] (the style with [50vw] or [50vh]), or a
    rectangle given by [top], [left], [width] and [height]. *)
Inductive Highlight : Type :=
| ScreenHalf (s : Edge)
| CellHalf (top left width height : Q).

(** The style of the second branch: the half of [targetCell] on the side
    of the indicator. *)
Definition cellHighlight (targetCell : GridCell.t) (s : Edge) : Highlight :=
  match s with
  | Left =>
      CellHalf (GridCell.y targetCell) (GridCell.x targetCell)
        (GridCell.width targetCell / 2) (GridCell.height targetCell)
  | Right =>
      CellHalf (GridCell.y targetCell)
        (GridCell.x targetCell + GridCell.width targetCell / 2)
        (GridCell.width targetCell / 2) (GridCell.height targetCell)
  | Top =>
      CellHalf (GridCell.y targetCell) (GridCell.x targetCell)
        (GridCell.width targetCell) (GridCell.height targetCell / 2)
  | Bottom =>
      CellHalf (GridCell.y targetCell + GridCell.height targetCell / 2)
        (GridCell.x targetCell)
        (GridCell.width targetCell) (GridCell.height targetCell / 2)
  end.

(** [{snapIndicator && (() => { ... })()}] of the rendering: nothing
    without an indicator; the screen half when the dragged window is at a
    screen edge (by its shown position and the constants); else the half
    of the cell under [dragPos], nothing when there is no such cell.  The
    outer [option] is the fuel of [findGridCell]. *)
Definition snapOverlay (st : State) : option (option Highlight) :=
  match snapIndicator st with
  | None => Some None
  | Some s =>
      let win := match draggingId st with
                 | Some d => find (winById d) (windows st)
                 | None => None
                 end in
      let isScreenEdgeSnap :=
        match win with
        | Some w =>
            isScreenEdgeSnapCandidate (px (WindowData.position w))
              (py (WindowData.position w)) (innerWidth st) (innerHeight st)
        | None => false
        end in
      if isScreenEdgeSnap then Some (Some (ScreenHalf s))
      else
        match findGridCell (gridCells st) (px (dragPos st))
                (py (dragPos st)) with
        | None => None
        | Some None => Some None
        | Some (Some targetCell) => Some (Some (cellHighlight targetCell s))
        end
  end.

(** ** States reached with ids that are new and distinct *)

(** The two ids drawn at the end of a drag differ. *)
Definition distinctIds (ev : Event) : Prop :=
  match ev with
  | MouseUp _ id1 id2 => id1 <> id2
  | _ => True
  end.

Inductive reachableUnique (w h : Q) : State -> Prop :=
| unique_init : reachableUnique w h (initialState w h)
| unique_step st ev st' :
    reachableUnique w h st -> freshIds st ev -> distinctIds ev ->
    handle st ev = Some st' ->
    reachableUnique w h st'.

(** Every event of the sequence draws new and distinct ids. *)
Fixpoint drawsNewIds (st : State) (evs : list Event) : Prop :=
  match evs with
  | [] => True
  | ev :: rest =>
      freshIds st ev /\ distinctIds ev
      /\ match handle st ev with
         | Some st' => drawsNewIds st' rest
         | None => False
         end
  end.

(** The right leaf of [splitOnce]. *)
Definition cell22 : GridCell.t :=
  GridCell.mk "22" 500 0 500 800 (Some "7") None (Some "root").

(** A pointer move over the left screen edge, and one over the right
    edge of the root cell with the window away from the screen edges. *)
Definition edgeHoverEvents : list Event :=
  grabEvents ++ [ MouseMove (mkPoint 50 5) ].

Definition cellHoverEvents : list Event :=
  snapLeftEvents ++ [ MouseMove (mkPoint 990 400) ].

(** * Properties *)

(** ** Numbers and comparisons *)

Lemma Qltb_true (a b : Q) : Qltb a b = true <-> a < b.
Proof.
  unfold Qltb. rewrite negb_true_iff. split; intro H.
  - apply Qnot_le_lt. intro L. apply Qle_bool_iff in L. congruence.
  - destruct (Qle_bool b a) eqn:E; [|reflexivity].
    apply Qle_bool_iff in E. exfalso. apply (Qlt_not_le _ _ H E).
Qed.

Lemma Qltb_false (a b : Q) : Qltb a b = false <-> b <= a.
Proof.
  unfold Qltb. rewrite negb_false_iff. apply Qle_bool_iff.
Qed.

(** ** Lists and lookups *)

Section Lookup.
Context {A : Type}.

Lemma find_app (f : A -> bool) (l1 l2 : list A) :
  find f (l1 ++ l2)
  = match find f l1 with Some a => Some a | None => find f l2 end.
Proof.
  induction l1 as [|a l1 IH]; simpl; [reflexivity|].
  destruct (f a); [reflexivity | exact IH].
Qed.

Lemma find_map_stable (f : A -> bool) (g : A -> A) (l : list A) :
  (forall a, f (g a) = f a) ->
  find f (map g l) = option_map g (find f l).
Proof.
  intro Hfg. induction l as [|a l IH]; simpl; [reflexivity|].
  rewrite Hfg. destruct (f a); [reflexivity | exact IH].
Qed.

Lemma find_filter_keep (f keep : A -> bool) (l : list A) (a : A) :
  find f l = Some a -> keep a = true ->
  find f (filter keep l) = Some a.
Proof.
  induction l as [|b l IH]; simpl; [discriminate|].
  destruct (f b) eqn:Fb.
  - intros [= ->] Ka. rewrite Ka. simpl. rewrite Fb. reflexivity.
  - intros Hf Ka. destruct (keep b); simpl; [rewrite Fb|]; auto.
Qed.

Lemma find_all_false (f : A -> bool) (l : list A) :
  (forall a, In a l -> f a = false) -> find f l = None.
Proof.
  induction l as [|b l IH]; simpl; intro H; [reflexivity|].
  rewrite (H b (or_introl eq_refl)). apply IH. intros a Ha.
  apply H. right. exact Ha.
Qed.

Lemma filter_all_true (keep : A -> bool) (l : list A) :
  (forall a, In a l -> keep a = true) -> filter keep l = l.
Proof.
  induction l as [|b l IH]; simpl; intro H; [reflexivity|].
  rewrite (H b (or_introl eq_refl)). f_equal. apply IH. intros a Ha.
  apply H. right. exact Ha.
Qed.
End Lookup.

Lemma byId_true (i : string) (c : GridCell.t) :
  byId i c = true <-> GridCell.id c = i.
Proof. unfold byId. apply String.eqb_eq. Qed.

Lemma byId_false (i : string) (c : GridCell.t) :
  byId i c = false <-> GridCell.id c <> i.
Proof. unfold byId. apply String.eqb_neq. Qed.

Lemma find_byId_fresh (i : string) (cells : list GridCell.t) :
  ~ In i (cellIds cells) -> find (byId i) cells = None.
Proof.
  intro Hfresh. apply find_all_false. intros c Hc. apply byId_false.
  intro E. apply Hfresh. subst i. apply in_map. exact Hc.
Qed.

Lemma find_byId_id (i : string) (cells : list GridCell.t) (c : GridCell.t) :
  find (byId i) cells = Some c -> In c cells /\ GridCell.id c = i.
Proof.
  intro H. apply find_some in H. destruct H as [Hin Hb].
  split; [exact Hin | apply byId_true; exact Hb].
Qed.

Lemma find_byId_unique (cells : list GridCell.t) (c d : GridCell.t) :
  NoDup (cellIds cells) -> In c cells -> In d cells ->
  GridCell.id c = GridCell.id d -> c = d.
Proof.
  induction cells as [|a cells IH]; simpl; [intros _ []|].
  intros Hnd Hc Hd E. inversion Hnd as [|? ? Hnotin Hnd']; subst.
  destruct Hc as [->|Hc], Hd as [->|Hd]; auto.
  - exfalso. apply Hnotin. rewrite E. apply in_map. exact Hd.
  - exfalso. apply Hnotin. rewrite <- E. apply in_map. exact Hc.
Qed.

Lemma opt_eqb_eq a b : opt_eqb a b = true <-> a = b.
Proof.
  destruct a as [s|], b as [t|]; cbn; split; intro H;
    try discriminate; try reflexivity.
  - apply String.eqb_eq in H. congruence.
  - injection H as ->. apply String.eqb_refl.
Qed.

Lemma opt_eqb_Some (s : string) (o : option string) :
  opt_eqb (Some s) o = true <-> o = Some s.
Proof.
  destruct o as [t|]; simpl; split; intro H; try discriminate.
  - apply String.eqb_eq in H. congruence.
  - injection H as ->. apply String.eqb_refl.
Qed.

Lemma opt_eqb_Some_r (s : string) (o : option string) :
  opt_eqb o (Some s) = true <-> o = Some s.
Proof.
  destruct o as [t|]; simpl; split; intro H; try discriminate.
  - apply String.eqb_eq in H. congruence.
  - injection H as ->. apply String.eqb_refl.
Qed.

(** ** Splitting a cell *)

Lemma newCellsOf_ids_any cell s W id1 id2 :
  map GridCell.id (newCellsOf cell s W id1 id2) = [id1; id2].
Proof. destruct s as [[]|]; reflexivity. Qed.

Lemma splitGridCell_found cells cellId s W id1 id2 cell :
  find (byId cellId) cells = Some cell ->
  splitGridCell cells cellId s W id1 id2
  = map (fun c => if byId cellId c
                  then splitParent cell (newCellsOf cell s W id1 id2)
                  else c) cells
    ++ newCellsOf cell s W id1 id2.
Proof. intro H. unfold splitGridCell. rewrite H. reflexivity. Qed.

Lemma splitUpdate_id cellId parent' (c : GridCell.t) :
  GridCell.id parent' = cellId ->
  GridCell.id (if byId cellId c then parent' else c) = GridCell.id c.
Proof.
  intro E. destruct (byId cellId c) eqn:B; [|reflexivity].
  apply byId_true in B. congruence.
Qed.

Lemma find_byId_splitUpdate k cellId parent' cells :
  GridCell.id parent' = cellId ->
  find (byId k) (map (fun c => if byId cellId c then parent' else c) cells)
  = option_map (fun c => if byId cellId c then parent' else c)
      (find (byId k) cells).
Proof.
  intro E. apply find_map_stable. intro c. unfold byId at 1 3.
  rewrite (splitUpdate_id cellId parent' c E). reflexivity.
Qed.

(** C3 — [splitGridCell] on an existing cell, with two fresh ids: the
    cell keeps its id and rectangle, loses its occupant and gets exactly
    the two new cells as children; both are leaves whose parent is the
    cell; for [left]/[right] they are the two equal-width halves side by
    side, for [top]/[bottom] the two equal-height halves one above the
    other; the child on the side of the edge is occupied by the new
    window and the other one by the former occupant of the cell (possibly
    none). *)
Theorem splitGridCell_halves cells cellId e W id1 id2 cell :
  find (byId cellId) cells = Some cell ->
  ~ In id1 (cellIds cells) -> ~ In id2 (cellIds cells) -> id1 <> id2 ->
  exists parent' a b,
    let cells' := splitGridCell cells cellId (Some e) W id1 id2 in
    find (byId cellId) cells' = Some parent'
    /\ find (byId id1) cells' = Some a
    /\ find (byId id2) cells' = Some b
    /\ (GridCell.windowId parent' = None
        /\ GridCell.children parent' = Some [id1; id2]
        /\ isLeaf parent' = false
        /\ GridCell.x parent' = GridCell.x cell
        /\ GridCell.y parent' = GridCell.y cell
        /\ GridCell.width parent' = GridCell.width cell
        /\ GridCell.height parent' = GridCell.height cell
        /\ GridCell.parentId parent' = GridCell.parentId cell)
    /\ (isLeaf a = true /\ isLeaf b = true
        /\ GridCell.parentId a = Some cellId
        /\ GridCell.parentId b = Some cellId)
    /\ (GridCell.x a = GridCell.x cell /\ GridCell.y a = GridCell.y cell)
    /\ match e with
       | Left | Right =>
           GridCell.width a = GridCell.width cell / 2
           /\ GridCell.width b = GridCell.width cell / 2
           /\ GridCell.width a + GridCell.width b == GridCell.width cell
           /\ GridCell.x b = GridCell.x a + GridCell.width a
           /\ GridCell.y b = GridCell.y cell
           /\ GridCell.height a = GridCell.height cell
           /\ GridCell.height b = GridCell.height cell
       | Top | Bottom =>
           GridCell.height a = GridCell.height cell / 2
           /\ GridCell.height b = GridCell.height cell / 2
           /\ GridCell.height a + GridCell.height b == GridCell.height cell
           /\ GridCell.y b = GridCell.y a + GridCell.height a
           /\ GridCell.x b = GridCell.x cell
           /\ GridCell.width a = GridCell.width cell
           /\ GridCell.width b = GridCell.width cell
       end
    /\ (exists side other,
          find (byId (edgeSide e id1 id2)) cells' = Some side
          /\ find (byId (otherSide e id1 id2)) cells' = Some other
          /\ GridCell.windowId side = Some W
          /\ GridCell.windowId other = GridCell.windowId cell).
Proof.
  intros Hfind F1 F2 Hneq.
  destruct (find_byId_id _ _ _ Hfind) as [Hin Hid].
  pose (new := newCellsOf cell (Some e) W id1 id2).
  assert (Hpid : GridCell.id (splitParent cell new) = cellId) by exact Hid.
  assert (Lparent : find (byId cellId)
                      (splitGridCell cells cellId (Some e) W id1 id2)
                    = Some (splitParent cell new)).
  { rewrite (splitGridCell_found _ _ _ _ _ _ _ Hfind), find_app.
    rewrite (find_byId_splitUpdate _ _ _ _ Hpid), Hfind. simpl.
    replace (byId cellId cell) with true; [reflexivity|].
    symmetry. apply byId_true. exact Hid. }
  assert (Lnew : forall k, ~ In k (cellIds cells) ->
            find (byId k) (splitGridCell cells cellId (Some e) W id1 id2)
            = find (byId k) new).
  { intros k Fk.
    rewrite (splitGridCell_found _ _ _ _ _ _ _ Hfind), find_app.
    rewrite (find_byId_splitUpdate _ _ _ _ Hpid).
    rewrite (find_byId_fresh _ _ Fk). reflexivity. }
  assert (E11 : String.eqb id1 id1 = true) by apply String.eqb_refl.
  assert (E22 : String.eqb id2 id2 = true) by apply String.eqb_refl.
  assert (E12 : String.eqb id1 id2 = false) by (apply String.eqb_neq; exact Hneq).
  assert (Q2 : forall q : Q, q / 2 + q / 2 == q) by (intro q; field).
  assert (E21 : String.eqb id2 id1 = false).
  { apply String.eqb_neq. intro E. apply Hneq. symmetry. exact E. }
  exists (splitParent cell new).
  destruct e; cbn [edgeSide otherSide]; cbv zeta;
    rewrite Lparent, !(Lnew id1 F1), !(Lnew id2 F2);
    unfold new, newCellsOf, byId; cbn [find GridCell.id Edge_eqb];
    rewrite ?E11, ?E22, ?E12, ?E21;
    (eexists; eexists;
     split; [reflexivity|]; split; [reflexivity|]; split; [reflexivity|];
     cbn; rewrite ?Hid;
     repeat split; try reflexivity; try apply Q2;
     eexists; eexists; repeat split; reflexivity).
Qed.

Lemma splitGridCell_length cells cellId s W id1 id2 cell :
  find (byId cellId) cells = Some cell ->
  List.length (splitGridCell cells cellId s W id1 id2)
  = S (S (List.length cells)).
Proof.
  intro H. rewrite (splitGridCell_found _ _ _ _ _ _ _ H).
  rewrite length_app, length_map.
  assert (L : List.length (newCellsOf cell s W id1 id2) = 2%nat).
  { destruct s as [[]|]; reflexivity. }
  rewrite L. lia.
Qed.

(** C8, counterexample — the root of [splitOnce] is internal, and
    splitting it again does not return the arena: two cells are added. *)
Lemma splitGridCell_internal_counterexample : ~ splitRejectsNonLeaf.
Proof.
  intro H.
  specialize (H splitOnce "root" (Some Left) "9" "31" "32").
  assert (P : find (byId "root") splitOnce = None
              \/ exists c, find (byId "root") splitOnce = Some c
                           /\ isLeaf c = false).
  { right. eexists. split; reflexivity. }
  apply H in P. apply (f_equal (@List.length _)) in P.
  vm_compute in P. discriminate P.
Qed.

(** C8, amended — [splitGridCell] returns the arena unchanged exactly
    when no cell has the id; a cell that has the id is split whether it is
    a leaf or not. *)
Theorem splitGridCell_noop_iff cells cellId s W id1 id2 :
  splitGridCell cells cellId s W id1 id2 = cells
  <-> find (byId cellId) cells = None.
Proof.
  split.
  - intro E. destruct (find (byId cellId) cells) as [cell|] eqn:F;
      [|reflexivity].
    apply (f_equal (@List.length _)) in E.
    rewrite (splitGridCell_length _ _ _ _ _ _ _ F) in E. lia.
  - intro F. unfold splitGridCell. rewrite F. reflexivity.
Qed.

(** ** Merging two siblings *)

Lemma mergedParent_sameRect parent sibling :
  within sibling parent -> sameRect (mergedParent parent sibling) parent.
Proof.
  intros (Hx & Hxw & Hy & Hyh). unfold sameRect, mergedParent. cbn.
  pose proof (Q.min_l _ _ Hx) as Mx. pose proof (Q.min_l _ _ Hy) as My.
  pose proof (Q.max_l _ _ Hxw) as Mxw. pose proof (Q.max_l _ _ Hyh) as Myh.
  repeat split; lra.
Qed.

Lemma newCellsOf_sides cell e W id1 id2 :
  exists wcell ocell,
    (newCellsOf cell (Some e) W id1 id2 = [wcell; ocell]
     \/ newCellsOf cell (Some e) W id1 id2 = [ocell; wcell])
    /\ GridCell.id wcell = edgeSide e id1 id2
    /\ GridCell.id ocell = otherSide e id1 id2
    /\ GridCell.parentId wcell = Some (GridCell.id cell)
    /\ GridCell.parentId ocell = Some (GridCell.id cell)
    /\ GridCell.windowId wcell = Some W
    /\ GridCell.windowId ocell = GridCell.windowId cell
    /\ (0 <= GridCell.width cell -> 0 <= GridCell.height cell ->
        within ocell cell).
Proof.
  assert (H2 : forall q : Q, 0 <= q -> q / 2 <= q /\ 0 <= q / 2).
  { intros q Hq. assert (q / 2 + q / 2 == q) by field. split; lra. }
  assert (Hw : GridCell.width cell / 2 + GridCell.width cell / 2
               == GridCell.width cell) by field.
  assert (Hh : GridCell.height cell / 2 + GridCell.height cell / 2
               == GridCell.height cell) by field.
  destruct e; cbn; eexists; eexists.
  1, 3: split; [left; reflexivity|].
  3, 4: split; [right; reflexivity|].
  all: cbn; do 6 (split; [reflexivity|]); intros Pw Ph;
    destruct (H2 _ Pw) as [? ?]; destruct (H2 _ Ph) as [? ?];
    unfold within; cbn; repeat split; lra.
Qed.

Lemma cellEquiv_refl c : cellEquiv c c.
Proof. unfold cellEquiv, sameRect. repeat split; reflexivity. Qed.

Lemma isLeaf_childIds c : isLeaf c = true -> childIds c = [].
Proof.
  unfold isLeaf, childIds. destruct (GridCell.children c) as [[|? ?]|];
    [reflexivity | discriminate | reflexivity].
Qed.

Lemma truthy_Some s : s <> "" -> truthy (Some s) = true.
Proof. intro H. simpl. apply negb_true_iff, String.eqb_neq. exact H. Qed.

(** C2 — in an arena that is a tree (ids never repeated, no cell
    naming the leaf as parent, a non-negative rectangle, a non-empty id),
    splitting a leaf with two fresh ids and then merging the new leaf the
    window went to gives back the arena: the same cells in the same order,
    each with its id, links and occupant, and an equal rectangle. *)
Theorem split_then_merge cells L e W id1 id2 leaf :
  NoDup (cellIds cells) ->
  find (byId L) cells = Some leaf ->
  isLeaf leaf = true ->
  L <> "" ->
  (forall c, In c cells -> GridCell.parentId c <> Some L) ->
  0 <= GridCell.width leaf -> 0 <= GridCell.height leaf ->
  ~ In id1 (cellIds cells) -> ~ In id2 (cellIds cells) -> id1 <> id2 ->
  Forall2 cellEquiv
    (mergeGridCells (splitGridCell cells L (Some e) W id1 id2)
       (edgeSide e id1 id2))
    cells.
Proof.
  intros Hnd Hfind Hleaf HL Hpar Pw Ph F1 F2 Hneq.
  destruct (find_byId_id _ _ _ Hfind) as [Hin Hid].
  destruct (newCellsOf_sides leaf e W id1 id2)
    as (wcell & ocell & Hnew & Hwid & Hoid & Hwp & Hop & Hww & How & Hwithin).
  specialize (Hwithin Pw Ph). rewrite Hid in Hwp, Hop.
  set (new := newCellsOf leaf (Some e) W id1 id2) in *.
  set (upd := fun c : GridCell.t =>
                if byId L c then splitParent leaf new else c).
  assert (Hsplit : splitGridCell cells L (Some e) W id1 id2
                   = map upd cells ++ new)
    by exact (splitGridCell_found _ _ _ _ _ _ _ Hfind).
  assert (Hupd_id : forall c, GridCell.id (upd c) = GridCell.id c).
  { intro c. apply splitUpdate_id. exact Hid. }
  assert (Hfu : forall k, find (byId k) (map upd cells)
                          = option_map upd (find (byId k) cells)).
  { intro k. apply find_map_stable. intro c. unfold byId.
    rewrite Hupd_id. reflexivity. }
  assert (Hfresh_w : ~ In (GridCell.id wcell) (cellIds cells)).
  { rewrite Hwid. destruct e; assumption. }
  assert (Hfresh_o : ~ In (GridCell.id ocell) (cellIds cells)).
  { rewrite Hoid. destruct e; assumption. }
  assert (Hwo : GridCell.id wcell <> GridCell.id ocell).
  { rewrite Hwid, Hoid. destruct e; cbn; congruence. }
  assert (Hold : forall c, In c cells ->
            GridCell.id c <> GridCell.id wcell
            /\ GridCell.id c <> GridCell.id ocell).
  { intros c Hc. split; intro E; [apply Hfresh_w | apply Hfresh_o];
      rewrite <- E; apply in_map; exact Hc. }
  assert (Hin_new : forall P : GridCell.t -> bool,
            P wcell = true -> P ocell = false -> find P new = Some wcell).
  { intros P Pw' Po'. destruct Hnew as [-> | ->]; cbn;
      rewrite ?Po', Pw'; reflexivity. }
  (* the cell merged: the new leaf of the window *)
  assert (Lw : find (byId (edgeSide e id1 id2)) (map upd cells ++ new)
               = Some wcell).
  { rewrite find_app, Hfu.
    rewrite find_byId_fresh by (rewrite <- Hwid; exact Hfresh_w). cbn.
    apply Hin_new; [apply byId_true; exact Hwid|].
    apply byId_false. rewrite <- Hwid. congruence. }
  (* its parent: the cell that was split *)
  assert (Lp : find (fun c => opt_eqb (Some (GridCell.id c)) (Some L))
                 (map upd cells ++ new)
               = Some (splitParent leaf new)).
  { change (fun c => opt_eqb (Some (GridCell.id c)) (Some L)) with (byId L).
    rewrite find_app, Hfu.
    rewrite Hfind. cbn. unfold upd.
    replace (byId L leaf) with true; [reflexivity|].
    symmetry. apply byId_true. exact Hid. }
  (* its sibling: the other new leaf *)
  assert (Ls : find (fun c => opt_eqb (GridCell.parentId c) (Some L)
                              && negb (byId (edgeSide e id1 id2) c))
                 (map upd cells ++ new)
               = Some ocell).
  { rewrite find_app. rewrite find_all_false.
    - destruct Hnew as [-> | ->]; cbn; rewrite Hwp, Hop; cbn;
        rewrite String.eqb_refl; cbn;
        replace (byId (edgeSide e id1 id2) wcell) with true
          by (symmetry; apply byId_true; exact Hwid);
        replace (byId (edgeSide e id1 id2) ocell) with false
          by (symmetry; apply byId_false; rewrite <- Hwid; congruence);
        reflexivity.
    - intros c' Hc'. apply in_map_iff in Hc'. destruct Hc' as (c & <- & Hc).
      apply andb_false_iff. left.
      destruct (opt_eqb (GridCell.parentId (upd c)) (Some L)) eqn:E;
        [|reflexivity].
      apply opt_eqb_Some_r in E. exfalso. unfold upd in E.
      destruct (byId L c); [apply (Hpar leaf Hin) | apply (Hpar c Hc)];
        exact E. }
  unfold mergeGridCells. rewrite Hsplit, Lw. rewrite Hwp.
  rewrite (truthy_Some L HL). cbn [negb]. rewrite Lp, Ls. cbv zeta.
  (* the filter drops the two new leaves and nothing else *)
  rewrite filter_app.
  rewrite (filter_all_true _ (map upd cells)).
  2:{ intros c' Hc'. apply in_map_iff in Hc'. destruct Hc' as (c & <- & Hc).
      destruct (Hold c Hc) as [Nw No].
      apply andb_true_iff. split; apply negb_true_iff, byId_false;
        rewrite Hupd_id; [rewrite <- Hwid|]; assumption. }
  replace (filter _ new) with (@nil GridCell.t).
  2:{ symmetry. destruct Hnew as [-> | ->]; cbn;
        replace (byId (edgeSide e id1 id2) wcell) with true
          by (symmetry; apply byId_true; exact Hwid);
        replace (byId (GridCell.id ocell) ocell) with true
          by (symmetry; apply byId_true; reflexivity);
        cbn; rewrite ?andb_false_r; reflexivity. }
  rewrite app_nil_r, map_map.
  (* cell by cell *)
  assert (Hall : forall c, In c cells ->
            cellEquiv
              (if opt_eqb (Some (GridCell.id (upd c))) (Some L)
               then mergedParent (splitParent leaf new) ocell
               else upd c) c).
  { intros c Hc. rewrite Hupd_id. cbn [opt_eqb].
    destruct (String.eqb (GridCell.id c) L) eqn:E.
    - apply String.eqb_eq in E.
      assert (c = leaf) as ->.
      { apply (find_byId_unique cells); auto. congruence. }
      unfold cellEquiv. split; [reflexivity|]. split.
      + assert (W' : within ocell (splitParent leaf new)) by exact Hwithin.
        apply mergedParent_sameRect in W'.
        destruct W' as (? & ? & ? & ?). unfold sameRect in *.
        cbn in *. repeat split; assumption.
      + split; [exact How|]. split; [|reflexivity].
        rewrite (isLeaf_childIds leaf Hleaf). reflexivity.
    - unfold upd. change (byId L c) with (String.eqb (GridCell.id c) L).
      rewrite E. apply cellEquiv_refl. }
  clear - Hall. induction cells as [|c cells IH]; cbn; constructor.
  - apply Hall. left. reflexivity.
  - apply IH. intros c' Hc'. apply Hall. right. exact Hc'.
Qed.

(** ** The search of [findGridCell] returns *)

Lemma forwardFrom_incl seen seen' cells :
  (forall k, In k seen' -> In k seen) ->
  forwardFrom seen cells -> forwardFrom seen' cells.
Proof.
  revert seen seen'. induction cells as [|c cells IH]; cbn; [auto|].
  intros seen seen' Hincl [Hc Hrest]. split.
  - intros k Hk. destruct (Hc k Hk) as [N1 N2]. split; [|exact N2].
    intro Hin. apply N1, Hincl, Hin.
  - apply (IH (GridCell.id c :: seen)); [|exact Hrest].
    intros k [->|Hk]; [left; reflexivity | right; apply Hincl, Hk].
Qed.

Lemma forwardFrom_split seen pre c post :
  forwardFrom seen (pre ++ c :: post) ->
  forall k, In k (childIds c) ->
            ~ In k seen /\ ~ In k (cellIds pre) /\ k <> GridCell.id c.
Proof.
  revert seen. induction pre as [|a pre IH]; cbn; intros seen [Ha Hrest] k Hk.
  - destruct (Ha k Hk) as [N1 N2]. repeat split; [exact N1 | intros [] | exact N2].
  - destruct (IH _ Hrest k Hk) as (N1 & N2 & N3).
    split; [intro Hin; apply N1; right; exact Hin|].
    split; [|exact N3].
    intros [E|Hin]; [apply N1; left; exact E | exact (N2 Hin)].
Qed.

Lemma find_byId_skip k pre c post :
  ~ In k (cellIds pre) -> k <> GridCell.id c ->
  find (byId k) (pre ++ c :: post) = find (byId k) post.
Proof.
  intros N1 N2. rewrite find_app, (find_byId_fresh _ _ N1). cbn.
  replace (byId k c) with false; [reflexivity|].
  symmetry. apply byId_false. congruence.
Qed.

Section Descent.
Variable cells : list GridCell.t.
Variables ptx pty : Q.
Hypothesis Hforward : forward cells.

Lemma findInCell_returns fuel : forall pre c post,
  cells = pre ++ c :: post -> (List.length post < fuel)%nat ->
  exists r, findInCell cells ptx pty fuel c = Some r.
Proof.
  induction fuel as [|fuel IH]; intros pre c post Hcells Hlen; [lia|].
  cbn [findInCell]. destruct (inCell ptx pty c); [|eexists; reflexivity].
  assert (Hloop : forall ids,
            (forall k, In k ids -> In k (childIds c)) ->
            exists r, overChildren cells (findInCell cells ptx pty fuel)
                        c ids = Some r).
  { induction ids as [|k ids IHids]; cbn [overChildren]; intro Hsub;
      [eexists; reflexivity|].
    assert (Hrest : exists r,
              overChildren cells (findInCell cells ptx pty fuel) c ids
              = Some r).
    { apply IHids. intros k' Hk'. apply Hsub. right. exact Hk'. }
    destruct (find (byId k) cells) as [child|] eqn:Hfind; [|exact Hrest].
    unfold forward in Hforward. rewrite Hcells in Hforward, Hfind.
    destruct (forwardFrom_split [] pre c post Hforward k)
      as (_ & N1 & N2); [apply Hsub; left; reflexivity|].
    rewrite (find_byId_skip k pre c post N1 N2) in Hfind.
    apply find_some in Hfind. destruct Hfind as [Hin _].
    apply in_split in Hin. destruct Hin as (p1 & p2 & Hpost).
    destruct (IH (pre ++ c :: p1) child p2) as [r Hr].
    - rewrite Hcells, Hpost, <- app_assoc. reflexivity.
    - rewrite Hpost, length_app in Hlen. cbn in Hlen. lia.
    - rewrite Hr. destruct r as [result|]; [eexists; reflexivity|].
      exact Hrest. }
  destruct (GridCell.children c) as [[|k rest]|] eqn:Hch;
    try (eexists; reflexivity).
  apply Hloop. intros k' Hk'. unfold childIds. rewrite Hch. exact Hk'.
Qed.

Lemma findGridCell_returns :
  exists r, findGridCell cells ptx pty = Some r.
Proof.
  unfold findGridCell.
  destruct (find (byId "root") cells) as [root|] eqn:Hroot;
    [|eexists; reflexivity].
  apply find_some in Hroot. destruct Hroot as [Hin _].
  apply in_split in Hin. destruct Hin as (pre & post & Hcells).
  apply (findInCell_returns _ pre root post Hcells).
  rewrite Hcells, length_app. cbn. lia.
Qed.
End Descent.

Lemma onDrag_returns st e :
  forward (gridCells st) -> exists st', onDrag st e = Some st'.
Proof.
  intro F. unfold onDrag.
  destruct (draggingId st) as [d|]; [|eexists; reflexivity].
  destruct (negb (truthy (Some d))); [eexists; reflexivity|]. cbv zeta.
  match goal with
  | |- context [match ?scr with Some s => Some (Some s) | None => _ end] =>
      destruct scr as [s|]
  end; [eexists; reflexivity|].
  unfold gridIndicator.
  destruct (findGridCell_returns (gridCells st) (px e) (py e) F) as [r ->].
  eexists. reflexivity.
Qed.

Lemma onDragEnd_returns st e id1 id2 :
  forward (gridCells st) -> exists st', onDragEnd st e id1 id2 = Some st'.
Proof.
  intro F. unfold onDragEnd.
  destruct (draggingId st) as [d|]; [|eexists; reflexivity].
  destruct (negb (truthy (Some d))); [eexists; reflexivity|].
  destruct (find (winById d) (windows st)) as [win|]; [|eexists; reflexivity].
  destruct (snapIndicator st) as [s|]; [|eexists; reflexivity]. cbv zeta.
  destruct (isScreenEdgeSnap win _ _ _ _); [eexists; reflexivity|].
  destruct (findGridCell_returns (gridCells st) (px e) (py e) F) as [r ->].
  destruct r as [tc|]; [|eexists; reflexivity].
  destruct (cursorInParentBounds _ e); [|eexists; reflexivity].
  destruct (find (byWindow d) _); eexists; reflexivity.
Qed.

(** ** Pointer moves during a drag *)

Lemma onDrag_dragging st e st' d :
  draggingId st = Some d -> d <> "" -> onDrag st e = Some st' ->
  windows st' = map (moveWindow d (shownPosition st e d)) (windows st)
  /\ gridCells st' = gridCells st
  /\ draggingId st' = draggingId st
  /\ dragOffset st' = dragOffset st
  /\ dragPos st' = e
  /\ innerWidth st' = innerWidth st /\ innerHeight st' = innerHeight st
  /\ Some (snapIndicator st')
     = match (if negb (truthy (winParentId (dragWinOf st d)))
              then screenEdge (px (shownPosition st e d))
                     (py (shownPosition st e d))
                     (innerWidth st) (innerHeight st)
              else None) with
       | Some s => Some (Some s)
       | None =>
           gridIndicator (gridCells st)
             (parentCellOf (gridCells st) (dragWinOf st d)) e
       end.
Proof.
  intros Hd Hne H. unfold onDrag in H. rewrite Hd in H.
  rewrite (truthy_Some d Hne) in H. cbn [negb] in H. cbv zeta in H.
  fold (dragWinOf st d) in H.
  change (match parentCellOf (gridCells st) (dragWinOf st d) with
          | Some c => Some c
          | None => find (byWindow d) (gridCells st)
          end) with (clampCellOf st d) in H.
  change (clampPosition (clampCellOf st d) (dragWinOf st d)
            (px e - px (dragOffset st)) (py e - py (dragOffset st)))
    with (shownPosition st e d) in H.
  destruct (match (if negb (truthy (winParentId (dragWinOf st d)))
                   then screenEdge (px (shownPosition st e d))
                          (py (shownPosition st e d))
                          (innerWidth st) (innerHeight st)
                   else None) with
            | Some s => Some (Some s)
            | None =>
                gridIndicator (gridCells st)
                  (parentCellOf (gridCells st) (dragWinOf st d)) e
            end) as [indicator|] eqn:C; [|discriminate].
  injection H as <-.
  cbn [windows gridCells draggingId dragOffset dragPos innerWidth
         innerHeight snapIndicator].
  rewrite Hd. repeat split; try reflexivity. symmetry. exact C.
Qed.

Lemma onDrag_idle st e st' :
  truthy (draggingId st) = false -> onDrag st e = Some st' -> st' = st.
Proof.
  intros Hd H. unfold onDrag in H. destruct (draggingId st) as [d|].
  - rewrite Hd in H. cbn in H. congruence.
  - congruence.
Qed.

Lemma clampAxis_held v lo hi : heldIn (clampAxis v lo hi) lo hi.
Proof.
  unfold heldIn, clampAxis.
  destruct (Q.max_spec v lo) as [[? E1]|[? E1]],
           (Q.max_spec lo hi) as [[? E2]|[? E2]],
           (Q.min_spec (Qmax v lo) (Qmax lo hi)) as [[? E3]|[? E3]];
    split; lra.
Qed.

Lemma clampAxis_fits v lo hi :
  lo <= hi -> clampAxis v lo hi <= hi.
Proof.
  intro H. destruct (clampAxis_held v lo hi) as [_ H2].
  rewrite (Q.max_r _ _ H) in H2. exact H2.
Qed.

Lemma clampAxis_edge v lo hi :
  hi <= lo -> clampAxis v lo hi == lo.
Proof.
  intro H. destruct (clampAxis_held v lo hi) as [H1 H2].
  rewrite (Q.max_l _ _ H) in H2. lra.
Qed.


Lemma parentCellOf_docked cells win parent :
  truthy (WindowData.parentId win) = true ->
  find (fun c => opt_eqb (Some (GridCell.id c)) (WindowData.parentId win))
    cells = Some parent ->
  parentCellOf cells (Some win) = Some parent.
Proof. intros T F. unfold parentCellOf. rewrite T. exact F. Qed.



(** ** Reaching the scenarios *)

Lemma run_reachable w h evs : forall st st',
  reachable w h st -> Forall generated evs -> run st evs = Some st' ->
  reachable w h st'.
Proof.
  induction evs as [|ev evs IH]; intros st st' R G H; cbn in H.
  - injection H as <-. exact R.
  - inversion G as [|? ? Gev Gevs]; subst.
    destruct (handle st ev) as [st1|] eqn:E; [|discriminate].
    apply (IH st1 st'); auto. exact (reach_step w h st ev st1 R Gev E).
Qed.

Ltac generated_all :=
  repeat (constructor; try exact I; try (split; discriminate)).

Lemma stateAfter_reachable evs :
  Forall generated evs ->
  run (initialState 1000 800) evs <> None ->
  reachable 1000 800 (stateAfter evs).
Proof.
  intros G H. unfold stateAfter.
  destruct (run (initialState 1000 800) evs) as [st|] eqn:E; [|congruence].
  exact (run_reachable _ _ evs _ st (reach_init _ _) G E).
Qed.

Lemma redock_reachable : reachable 1000 800 (stateAfter redockEvents).
Proof.
  apply stateAfter_reachable; [generated_all | vm_compute; discriminate].
Qed.

Lemma twoDocked_reachable : reachable 1000 800 (stateAfter twoDockedEvents).
Proof.
  apply stateAfter_reachable; [generated_all | vm_compute; discriminate].
Qed.

Lemma shrink_reachable : reachable 1000 800 (stateAfter shrinkEvents).
Proof.
  apply stateAfter_reachable; [generated_all | vm_compute; discriminate].
Qed.

(** ** C1: a docked window dropped on another leaf *)

Lemma occupants_without cell parent' cells :
  NoDup (cellIds cells) -> In cell cells ->
  occupantOf parent' = [] ->
  Permutation (flat_map occupantOf cells)
    (occupantOf cell
     ++ flat_map occupantOf
          (map (fun c => if byId (GridCell.id cell) c then parent' else c)
             cells)).
Proof.
  intros Hnd Hin Hp.
  induction cells as [|c cells IH]; [destruct Hin|].
  cbn [map flat_map]. inversion Hnd as [|? ? Hnotin Hnd']; subst.
  destruct Hin as [->|Hin].
  - replace (byId (GridCell.id cell) cell) with true
      by (symmetry; apply byId_true; reflexivity).
    rewrite Hp. cbn [app].
    rewrite (map_ext_in _ (fun c => c)), map_id; [reflexivity|].
    intros c Hc. destruct (byId (GridCell.id cell) c) eqn:B; [|reflexivity].
    apply byId_true in B. exfalso. apply Hnotin. rewrite <- B.
    apply in_map. exact Hc.
  - replace (byId (GridCell.id cell) c) with false.
    + rewrite (IH Hnd' Hin) at 1. apply Permutation_app_swap_app.
    + symmetry. apply byId_false. intro E. apply Hnotin. rewrite E.
      apply in_map. exact Hin.
Qed.

(** The path the code provides for: splitting a leaf of an arena with
    distinct ids for a window that occupies no leaf keeps the occupants
    of the leaves distinct. *)
Lemma splitGridCell_keeps_distinct cells cellId e W id1 id2 cell :
  NoDup (cellIds cells) ->
  find (byId cellId) cells = Some cell -> isLeaf cell = true ->
  ~ In W (leafOccupants cells) ->
  occupantsDistinct cells ->
  occupantsDistinct (splitGridCell cells cellId (Some e) W id1 id2).
Proof.
  intros Hnd Hfind Hleaf HW Hdist.
  destruct (find_byId_id _ _ _ Hfind) as [Hin Hid].
  unfold occupantsDistinct, leafOccupants in *.
  rewrite (splitGridCell_found _ _ _ _ _ _ _ Hfind), flat_map_app.
  set (new := newCellsOf cell (Some e) W id1 id2).
  assert (Hnew : Permutation (flat_map occupantOf new)
                   (W :: occupantOf cell)).
  { unfold new, occupantOf. rewrite Hleaf.
    destruct e; cbn; destruct (GridCell.windowId cell); cbn;
      try reflexivity; apply perm_swap. }
  assert (Hparent : occupantOf (splitParent cell new) = []).
  { unfold occupantOf, isLeaf, splitParent, new.
    cbn [GridCell.children]. rewrite newCellsOf_ids_any. reflexivity. }
  assert (Hold := occupants_without cell (splitParent cell new) cells Hnd Hin
                    Hparent).
  rewrite Hid in Hold.
  apply (Permutation_NoDup (l := W :: flat_map occupantOf cells)).
  - apply (perm_trans (perm_skip W Hold)).
    apply (perm_trans (Permutation_app_comm (W :: occupantOf cell) _)).
    apply Permutation_app_head. symmetry. exact Hnew.
  - constructor; assumption.
Qed.

(** C1 — the code at the failing input: after [redockEvents], a state the
    component reaches, window 7 is the occupant of cell 22, the leaf it was
    docked in, and of cell 31, the leaf it was dropped on. *)
Theorem redock_duplicates_occupant :
  reachable 1000 800 (stateAfter redockEvents)
  /\ run (initialState 1000 800) redockEvents
     = Some (stateAfter redockEvents)
  /\ map (fun c => (GridCell.id c, isLeaf c, GridCell.windowId c))
       (gridCells (stateAfter redockEvents))
     = [ ("root", false, None); ("21", false, None);
         ("22", true, Some "7"); ("31", true, Some "7");
         ("32", true, None) ]
  /\ leafOccupants (gridCells (stateAfter redockEvents)) = ["7"; "7"]
  /\ ~ occupantsDistinct (gridCells (stateAfter redockEvents)).
Proof.
  split; [exact redock_reachable|].
  split; [vm_compute; reflexivity|].
  split; [vm_compute; reflexivity|].
  assert (L : leafOccupants (gridCells (stateAfter redockEvents))
              = ["7"; "7"]) by (vm_compute; reflexivity).
  split; [exact L|].
  unfold occupantsDistinct. rewrite L. intro N.
  inversion N as [|? ? Hnotin _]. apply Hnotin. left. reflexivity.
Qed.

(** ** C5 and C6: what a pointer move does to the window *)

(** C5, counterexample — a floating window grabbed 250 to the right of
    its corner and moved to the pointer (50, 5) is shown at (-200, -15),
    left of and above the viewport. *)
Lemma onDrag_free_counterexample : ~ clampsFreeIntoViewport.
Proof.
  intro H.
  destruct (onDrag (stateAfter grabEvents) (mkPoint 50 5)) as [st'|] eqn:E.
  2:{ vm_compute in E. discriminate E. }
  assert (D : draggingId (stateAfter grabEvents) = Some "7")
    by (vm_compute; reflexivity).
  assert (T : truthy (winParentId (dragWinOf (stateAfter grabEvents) "7"))
              = false) by (vm_compute; reflexivity).
  specialize (H _ _ _ "7" D ltac:(discriminate) T E).
  vm_compute in E. injection E as <-.
  inversion H as [|? ? Hw _]. destruct (Hw eq_refl) as [[Hx _] _].
  vm_compute in Hx. apply Hx. reflexivity.
Qed.

(** C6, counterexample — a window snapped to the left screen edge loses
    its snapped tag on the first pointer move of the next drag. *)
Lemma onDrag_snapped_counterexample : ~ dragKeepsDockState.
Proof.
  intro H.
  destruct (onDrag (stateAfter snapLeftEvents) (mkPoint 460 15))
    as [st'|] eqn:E.
  2:{ vm_compute in E. discriminate E. }
  destruct (H _ _ _ E) as [_ F].
  vm_compute in E. injection E as <-.
  inversion F as [|? ? ? ? (_ & S & _) _].
  vm_compute in S. discriminate S.
Qed.

Lemma Forall2_map_self {A : Type} (R : A -> A -> Prop) (f : A -> A) l :
  (forall a, In a l -> R a (f a)) -> Forall2 R l (map f l).
Proof.
  induction l as [|a l IH]; cbn; intro H; constructor.
  - apply H. left. reflexivity.
  - apply IH. intros b Hb. apply H. right. exact Hb.
Qed.

Lemma winById_true d w : winById d w = true <-> WindowData.id w = d.
Proof. unfold winById. apply String.eqb_eq. Qed.

Lemma truthy_dragging st :
  truthy (draggingId st) = true ->
  exists d, draggingId st = Some d /\ d <> "".
Proof.
  destruct (draggingId st) as [d|]; [|discriminate]. cbn. intro H.
  exists d. split; [reflexivity|].
  apply negb_true_iff, String.eqb_neq in H. exact H.
Qed.

Lemma clampAxis_room v lo extent size :
  size <= extent ->
  clampAxis v lo (lo + extent - size) + size <= lo + extent.
Proof.
  intro F. pose proof (clampAxis_fits v lo (lo + extent - size)) as G.
  assert (lo <= lo + extent - size) as L by lra. specialize (G L). lra.
Qed.

Lemma clampAxis_tight v lo extent size :
  extent <= size -> clampAxis v lo (lo + extent - size) == lo.
Proof. intro F. apply clampAxis_edge. lra. Qed.

(** The clamp of one axis by cases on the candidate [v]: kept when it is
    between the bounds, else moved onto the bound it has passed. *)
Lemma clampAxis_kept v lo hi :
  lo <= v -> v <= Qmax lo hi -> clampAxis v lo hi == v.
Proof.
  intros L U. unfold clampAxis.
  rewrite (Q.max_l v lo L). apply Q.min_l. exact U.
Qed.

Lemma clampAxis_below v lo hi :
  v < lo -> clampAxis v lo hi == lo.
Proof.
  intro L. unfold clampAxis.
  rewrite (Q.max_r v lo) by lra. apply Q.min_l. apply Q.le_max_l.
Qed.

Lemma clampAxis_above v lo hi :
  Qmax lo hi < v -> clampAxis v lo hi == Qmax lo hi.
Proof.
  intro U. unfold clampAxis.
  pose proof (Q.le_max_l lo hi) as M.
  rewrite (Q.max_l v lo) by lra. apply Q.min_r. lra.
Qed.

(** C5, amended — the pointer move returns (in an arena whose children
    come later) and the candidate position is clamped into the parent
    cell of the window when its parent reference names a cell, else into
    the cell that lists the window as occupant; each coordinate is held
    between the near edge of that cell and the larger of the near edge and
    the far edge minus the window size: a window that fits stays inside,
    a larger one is held at the near edge.  The shown coordinate is the
    candidate, pointer minus offset, when the candidate lies between
    these two bounds; it is the near edge when the candidate is before
    it, and the upper bound when the candidate is beyond it.  A window
    with no such cell is shown at the candidate position as it is. *)
Theorem onDrag_clamps_into_cell st e d :
  draggingId st = Some d -> d <> "" ->
  (forward (gridCells st) -> exists st', onDrag st e = Some st')
  /\ (forall st',
        onDrag st e = Some st' ->
        Forall (fun w' =>
                  WindowData.id w' = d ->
                  WindowData.position w' = shownPosition st e d)
          (windows st'))
  /\ (forall win parent,
        dragWinOf st d = Some win ->
        truthy (WindowData.parentId win) = true ->
        find (fun c => opt_eqb (Some (GridCell.id c))
                         (WindowData.parentId win)) (gridCells st)
        = Some parent ->
        clampCellOf st d = Some parent)
  /\ match clampCellOf st d with
     | Some c =>
         let p := shownPosition st e d in
         let winW := sw (dragSizeOf st d) in
         let winH := sh (dragSizeOf st d) in
         heldIn (px p) (GridCell.x c) (GridCell.x c + GridCell.width c - winW)
         /\ heldIn (py p) (GridCell.y c)
              (GridCell.y c + GridCell.height c - winH)
         /\ (winW <= GridCell.width c ->
             px p + winW <= GridCell.x c + GridCell.width c)
         /\ (winH <= GridCell.height c ->
             py p + winH <= GridCell.y c + GridCell.height c)
         /\ (GridCell.width c <= winW -> px p == GridCell.x c)
         /\ (GridCell.height c <= winH -> py p == GridCell.y c)
         /\ (let vx := px e - px (dragOffset st) in
             let hiX := Qmax (GridCell.x c)
                          (GridCell.x c + GridCell.width c - winW) in
             (GridCell.x c <= vx -> vx <= hiX -> px p == vx)
             /\ (vx < GridCell.x c -> px p == GridCell.x c)
             /\ (hiX < vx -> px p == hiX))
         /\ (let vy := py e - py (dragOffset st) in
             let hiY := Qmax (GridCell.y c)
                          (GridCell.y c + GridCell.height c - winH) in
             (GridCell.y c <= vy -> vy <= hiY -> py p == vy)
             /\ (vy < GridCell.y c -> py p == GridCell.y c)
             /\ (hiY < vy -> py p == hiY))
     | None =>
         shownPosition st e d = candidateOf st e
         /\ shownPosition st e d
            = mkPoint (px e - px (dragOffset st)) (py e - py (dragOffset st))
     end.
Proof.
  intros Hd Hne.
  split; [apply onDrag_returns|]. split.
  { intros st' H.
    destruct (onDrag_dragging st e st' d Hd Hne H) as (Hw & _).
    rewrite Hw. apply Forall_forall. intros w' Hin Hid.
    apply in_map_iff in Hin. destruct Hin as (w & <- & _).
    unfold moveWindow in *. destruct (winById d w) eqn:B; [reflexivity|].
    apply winById_true in Hid. congruence. }
  split.
  { intros win parent Hwin Hdock Hparent. unfold clampCellOf.
    rewrite Hwin, (parentCellOf_docked _ _ _ Hdock Hparent). reflexivity. }
  unfold shownPosition, dragSizeOf, candidateOf.
  destruct (clampCellOf st d) as [c|]; [|split; reflexivity].
  cbv zeta. unfold clampPosition.
  destruct (dragWinOf st d) as [win|]; cbn [px py sw sh];
    (split; [apply clampAxis_held|]; split; [apply clampAxis_held|];
     split; [apply clampAxis_room|]; split; [apply clampAxis_room|];
     split; [apply clampAxis_tight|]; split; [apply clampAxis_tight|];
     split;
     (split; [apply clampAxis_kept|];
      split; [apply clampAxis_below | apply clampAxis_above])).
Qed.

(** C6, amended — a pointer move returns (in an arena whose children
    come later) and leaves the tree, the viewport and the
    dragged id as they were; every window keeps its id, colour, size and
    parent reference; a window other than the dragged one is unchanged;
    the dragged one gets the shown position and its snapped tag is reset
    to none. *)
Theorem onDrag_moves_dragged_window st e :
  (forward (gridCells st) -> exists st', onDrag st e = Some st')
  /\ forall st',
       onDrag st e = Some st' ->
       gridCells st' = gridCells st
       /\ innerWidth st' = innerWidth st /\ innerHeight st' = innerHeight st
       /\ draggingId st' = draggingId st
       /\ Forall2 (fun w w' =>
                     WindowData.id w' = WindowData.id w
                     /\ WindowData.color w' = WindowData.color w
                     /\ WindowData.size w' = WindowData.size w
                     /\ WindowData.parentId w' = WindowData.parentId w
                     /\ (draggingId st <> Some (WindowData.id w) -> w' = w)
                     /\ (truthy (draggingId st) = true ->
                         draggingId st = Some (WindowData.id w) ->
                         WindowData.snapped w' = None
                         /\ WindowData.position w'
                            = shownPosition st e (WindowData.id w)))
            (windows st) (windows st').
Proof.
  split; [apply onDrag_returns|].
  intros st' H. destruct (truthy (draggingId st)) eqn:T.
  - destruct (truthy_dragging st T) as (d & Hd & Hne).
    destruct (onDrag_dragging st e st' d Hd Hne H)
      as (Hw & Hg & Hdr & _ & _ & Hiw & Hih & _).
    repeat (split; [assumption|]).
    rewrite Hw. apply Forall2_map_self. intros w _.
    unfold moveWindow. destruct (winById d w) eqn:B; cbn.
    + apply winById_true in B. subst d.
      repeat split; try reflexivity. intro N. congruence.
    + repeat split; try reflexivity; intros.
      all: exfalso; assert (E : WindowData.id w = d) by congruence;
        apply winById_true in E; congruence.
  - rewrite (onDrag_idle st e st' T H).
    repeat (split; [reflexivity|]).
    induction (windows st) as [|w l IH]; constructor; [|exact IH].
    repeat split; try reflexivity; intros; congruence.
Qed.

(** ** C4: closing a window *)

(** C4, counterexample — after [twoDockedEvents] cell 22 holds window 7
    (cell 41) above window 8 (cell 42).  Closing window 7 merges the two
    into cell 22, occupied by window 8, and window 8 takes the rectangle
    of cell 22; but its parent reference and its snapped tag are cleared:
    the window refers to no cell. *)
Lemma closeWindow_reference_counterexample : ~ closeRehomesDocked.
Proof.
  intro H.
  set (st := stateAfter twoDockedEvents) in *.
  destruct (find (byWindow "7") (gridCells st)) as [cell|] eqn:E1.
  2:{ vm_compute in E1. discriminate E1. }
  destruct (find (byId "22") (gridCells (closeWindow st "7")))
    as [merged|] eqn:E3.
  2:{ vm_compute in E3. discriminate E3. }
  destruct (find (winById "8") (windows (closeWindow st "7")))
    as [w'|] eqn:E5.
  2:{ vm_compute in E5. discriminate E5. }
  assert (E2 : GridCell.parentId cell = Some "22").
  { pose proof E1 as X. vm_compute in X. injection X as <-. reflexivity. }
  assert (E4 : GridCell.windowId merged = Some "8").
  { pose proof E3 as X. vm_compute in X. injection X as <-. reflexivity. }
  destruct (H st "7" cell "22" merged "8" w' E1 E2 E3 E4 E5)
    as (_ & _ & _ & P).
  vm_compute in E3, E5. injection E3 as <-. injection E5 as <-.
  discriminate P.
Qed.

Lemma rehome_id rc w : WindowData.id (rehome rc w) = WindowData.id w.
Proof. unfold rehome. destruct (opt_eqb _ _); reflexivity. Qed.

Lemma releaseCell_free st id :
  find (byWindow id) (gridCells st) = None -> releaseCell st id = st.
Proof. intro H. unfold releaseCell. rewrite H. reflexivity. Qed.

Lemma releaseCell_docked st id cell :
  find (byWindow id) (gridCells st) = Some cell ->
  gridCells (releaseCell st id)
  = mergeGridCells (gridCells st) (GridCell.id cell)
  /\ windows (releaseCell st id)
     = match find (otherOccupant id)
               (mergeGridCells (gridCells st) (GridCell.id cell)) with
       | Some remainingCell => map (rehome remainingCell) (windows st)
       | None => windows st
       end.
Proof.
  intro H. unfold releaseCell. rewrite H. cbv zeta.
  destruct (find (otherOccupant id)
              (mergeGridCells (gridCells st) (GridCell.id cell)));
    split; reflexivity.
Qed.

Lemma mergeGridCells_found cells cellId cell parent sibling :
  find (byId cellId) cells = Some cell ->
  truthy (GridCell.parentId cell) = true ->
  find (fun c => opt_eqb (Some (GridCell.id c)) (GridCell.parentId cell))
    cells = Some parent ->
  find (fun c => opt_eqb (GridCell.parentId c) (GridCell.parentId cell)
                 && negb (byId cellId c)) cells = Some sibling ->
  mergeGridCells cells cellId
  = map (fun c => if opt_eqb (Some (GridCell.id c)) (GridCell.parentId cell)
                  then mergedParent parent sibling else c)
      (filter (fun c => negb (byId cellId c)
                        && negb (byId (GridCell.id sibling) c)) cells).
Proof.
  intros Hcell Ht Hparent Hsib. unfold mergeGridCells.
  rewrite Hcell, Ht. cbn [negb]. rewrite Hparent, Hsib. reflexivity.
Qed.

(** In the merged arena the cell with the id of the parent is the merged
    parent: the envelope, occupied by the occupant of the sibling. *)
Lemma mergeGridCells_merged cells cellId cell parent sibling c :
  find (byId cellId) cells = Some cell ->
  truthy (GridCell.parentId cell) = true ->
  find (fun c => opt_eqb (Some (GridCell.id c)) (GridCell.parentId cell))
    cells = Some parent ->
  find (fun c => opt_eqb (GridCell.parentId c) (GridCell.parentId cell)
                 && negb (byId cellId c)) cells = Some sibling ->
  In c (mergeGridCells cells cellId) ->
  GridCell.id c = GridCell.id parent ->
  c = mergedParent parent sibling.
Proof.
  intros Hcell Ht Hparent Hsib Hin Hid.
  rewrite (mergeGridCells_found _ _ _ _ _ Hcell Ht Hparent Hsib) in Hin.
  apply find_some in Hparent. destruct Hparent as [_ Hpeq].
  apply opt_eqb_eq in Hpeq.
  apply in_map_iff in Hin. destruct Hin as (c0 & <- & _).
  destruct (opt_eqb (Some (GridCell.id c0)) (GridCell.parentId cell)) eqn:B;
    [reflexivity|].
  exfalso. rewrite <- Hpeq, <- Hid in B. cbn in B.
  rewrite String.eqb_refl in B. discriminate B.
Qed.

(** What [closeWindow] does to the windows once a cell [rc] of the merged
    arena is selected for re-homing. *)
Lemma closeWindow_rehomes st W cell rc :
  find (byWindow W) (gridCells st) = Some cell ->
  find (otherOccupant W) (gridCells (closeWindow st W)) = Some rc ->
  (forall w',
      In w' (windows (closeWindow st W)) ->
      Some (WindowData.id w') = GridCell.windowId rc ->
      WindowData.position w' = mkPoint (GridCell.x rc) (GridCell.y rc)
      /\ WindowData.size w'
         = mkSize (GridCell.width rc) (GridCell.height rc)
      /\ WindowData.snapped w' = None
      /\ WindowData.parentId w' = None)
  /\ (forall w,
        In w (windows st) -> WindowData.id w <> W ->
        Some (WindowData.id w) <> GridCell.windowId rc ->
        In w (windows (closeWindow st W))).
Proof.
  intros Hcell Hrc.
  destruct (releaseCell_docked st W cell Hcell) as [Hg Hw].
  assert (G : gridCells (closeWindow st W)
              = mergeGridCells (gridCells st) (GridCell.id cell))
    by exact Hg.
  rewrite G in Hrc. rewrite Hrc in Hw.
  assert (Wn : windows (closeWindow st W)
               = filter (fun w => negb (winById W w))
                   (map (rehome rc) (windows st))).
  { unfold closeWindow. cbn [windows setWindows]. rewrite Hw. reflexivity. }
  rewrite Wn. split.
  - intros w' Hin Hocc. apply filter_In in Hin. destruct Hin as [Hin _].
    apply in_map_iff in Hin. destruct Hin as (w & <- & _).
    rewrite rehome_id in Hocc. unfold rehome.
    replace (opt_eqb (Some (WindowData.id w)) (GridCell.windowId rc))
      with true; [cbn; repeat split; reflexivity|].
    symmetry. apply opt_eqb_Some. congruence.
  - intros w Hin Hne Hnocc. apply filter_In. split.
    + apply in_map_iff. exists w. split; [|exact Hin]. unfold rehome.
      destruct (opt_eqb (Some (WindowData.id w)) (GridCell.windowId rc))
        eqn:B; [|reflexivity].
      apply opt_eqb_Some in B. congruence.
    + apply negb_true_iff. destruct (winById W w) eqn:B; [|reflexivity].
      apply winById_true in B. congruence.
Qed.

(** C4, amended — [closeWindow] removes the window from the registry in
    every case.  When no cell lists the window, the tree is untouched and
    no other window changes.  When a cell lists it, the tree is merged at
    the first such cell.  When that merge finds the parent and the sibling
    and the merged parent is the cell selected for re-homing, it is
    occupied by the occupant of the sibling, every window with that id
    takes exactly its rectangle, and the snapped tag and the parent
    reference of that window are cleared; the windows that are neither
    closed nor re-homed are kept as they were. *)
Theorem closeWindow_merges_and_removes st W :
  (forall w, In w (windows (closeWindow st W)) -> WindowData.id w <> W)
  /\ (find (byWindow W) (gridCells st) = None ->
      gridCells (closeWindow st W) = gridCells st
      /\ windows (closeWindow st W)
         = filter (fun w => negb (winById W w)) (windows st))
  /\ (forall cell,
        find (byWindow W) (gridCells st) = Some cell ->
        gridCells (closeWindow st W)
        = mergeGridCells (gridCells st) (GridCell.id cell))
  /\ (forall cell parent sibling merged,
        find (byWindow W) (gridCells st) = Some cell ->
        find (byId (GridCell.id cell)) (gridCells st) = Some cell ->
        truthy (GridCell.parentId cell) = true ->
        find (fun c => opt_eqb (Some (GridCell.id c)) (GridCell.parentId cell))
          (gridCells st) = Some parent ->
        find (fun c => opt_eqb (GridCell.parentId c) (GridCell.parentId cell)
                       && negb (byId (GridCell.id cell) c))
          (gridCells st) = Some sibling ->
        find (otherOccupant W) (gridCells (closeWindow st W)) = Some merged ->
        GridCell.id merged = GridCell.id parent ->
        merged = mergedParent parent sibling
        /\ GridCell.windowId merged = GridCell.windowId sibling
        /\ (forall w',
              In w' (windows (closeWindow st W)) ->
              Some (WindowData.id w') = GridCell.windowId sibling ->
              WindowData.position w'
              = mkPoint (GridCell.x merged) (GridCell.y merged)
              /\ WindowData.size w'
                 = mkSize (GridCell.width merged) (GridCell.height merged)
              /\ WindowData.snapped w' = None
              /\ WindowData.parentId w' = None)
        /\ (forall w,
              In w (windows st) -> WindowData.id w <> W ->
              Some (WindowData.id w) <> GridCell.windowId sibling ->
              In w (windows (closeWindow st W)))).
Proof.
  split; [|split; [|split]].
  - intros w Hin. unfold closeWindow in Hin. cbn in Hin.
    apply filter_In in Hin. destruct Hin as [_ B].
    apply negb_true_iff in B. intro E. apply winById_true in E. congruence.
  - intro Hfree. unfold closeWindow. rewrite (releaseCell_free _ _ Hfree).
    split; reflexivity.
  - intros cell Hcell. apply (releaseCell_docked st W cell Hcell).
  - intros cell parent sibling merged Hcell Hid Ht Hparent Hsib Hrc Hmid.
    assert (G : gridCells (closeWindow st W)
                = mergeGridCells (gridCells st) (GridCell.id cell))
      by apply (releaseCell_docked st W cell Hcell).
    assert (Hm : merged = mergedParent parent sibling).
    { apply (mergeGridCells_merged (gridCells st) (GridCell.id cell)
               cell parent sibling); auto.
      rewrite <- G. apply (find_some _ _ Hrc). }
    assert (Hocc : GridCell.windowId merged = GridCell.windowId sibling)
      by (rewrite Hm; reflexivity).
    split; [exact Hm|]. split; [exact Hocc|].
    rewrite <- Hocc. exact (closeWindow_rehomes st W cell merged Hcell Hrc).
Qed.

(** ** C9: the root cell *)

Lemma sameRect_refl c : sameRect c c.
Proof. unfold sameRect. repeat split; reflexivity. Qed.

Lemma rootInv_initial w h : rootInv (gridCells (initialState w h)).
Proof.
  split; [eexists; reflexivity|].
  intros c [<-|[]] _. reflexivity.
Qed.

Lemma splitGridCell_root cells cellId s W id1 id2 r :
  id1 <> "root" -> id2 <> "root" ->
  rootInv cells -> find (byId "root") cells = Some r ->
  rootInv (splitGridCell cells cellId s W id1 id2)
  /\ exists r', find (byId "root") (splitGridCell cells cellId s W id1 id2)
                = Some r'
                /\ sameRect r' r.
Proof.
  intros N1 N2 [Hex Hpar] Hr.
  destruct (find (byId cellId) cells) as [cell|] eqn:Hfind.
  2:{ unfold splitGridCell. rewrite Hfind. split; [split; assumption|].
      exists r. split; [exact Hr | apply sameRect_refl]. }
  destruct (find_byId_id _ _ _ Hfind) as [Hin Hid].
  rewrite (splitGridCell_found _ _ _ _ _ _ _ Hfind).
  set (new := newCellsOf cell s W id1 id2).
  assert (Hpid : GridCell.id (splitParent cell new) = cellId) by exact Hid.
  assert (Hnew : forall c, In c new ->
            GridCell.id c = id1 \/ GridCell.id c = id2).
  { unfold new, newCellsOf. intros c Hc.
    destruct s as [[]|]; cbn in Hc;
      destruct Hc as [<-|[<-|[]]]; cbn; auto. }
  assert (Hroot' : find (byId "root")
                     (map (fun c => if byId cellId c
                                    then splitParent cell new else c) cells
                      ++ new)
                   = Some (if byId cellId r
                           then splitParent cell new else r)).
  { rewrite find_app, (find_byId_splitUpdate _ _ _ _ Hpid), Hr.
    reflexivity. }
  split; [split|].
  - eexists. exact Hroot'.
  - intros c Hc Hcid. apply in_app_or in Hc. destruct Hc as [Hc|Hc].
    + apply in_map_iff in Hc. destruct Hc as (c0 & <- & Hc0).
      destruct (byId cellId c0) eqn:B.
      * cbn. apply Hpar; [exact Hin|]. cbn in Hcid. exact Hcid.
      * apply Hpar; assumption.
    + destruct (Hnew c Hc); congruence.
  - eexists. split; [exact Hroot'|].
    destruct (byId cellId r) eqn:B; [|apply sameRect_refl].
    apply byId_true in B.
    destruct (find_byId_id _ _ _ Hr) as [_ Hrid].
    assert (cell = r) as ->.
    { assert (E : cellId = "root") by congruence. subst cellId.
      congruence. }
    unfold sameRect. cbn. repeat split; reflexivity.
Qed.

Lemma mergeGridCells_root cells cellId r :
  rootInv cells -> find (byId "root") cells = Some r ->
  rootInv (mergeGridCells cells cellId)
  /\ exists r', find (byId "root") (mergeGridCells cells cellId) = Some r'
                /\ (childrenWithinRoot cells -> sameRect r' r).
Proof.
  intros [Hex Hpar] Hr.
  assert (Same : rootInv cells
                 /\ exists r', find (byId "root") cells = Some r'
                               /\ (childrenWithinRoot cells -> sameRect r' r)).
  { split; [split; assumption|]. exists r.
    split; [exact Hr | intros _; apply sameRect_refl]. }
  unfold mergeGridCells.
  destruct (find (byId cellId) cells) as [cell|] eqn:Hcell; [|exact Same].
  destruct (truthy (GridCell.parentId cell)) eqn:T; [|exact Same].
  cbn [negb].
  destruct (find (fun c => opt_eqb (Some (GridCell.id c))
                             (GridCell.parentId cell)) cells)
    as [parent|] eqn:Hparent; [|exact Same].
  destruct (find (fun c => opt_eqb (GridCell.parentId c)
                             (GridCell.parentId cell)
                           && negb (byId cellId c)) cells)
    as [sibling|] eqn:Hsib; [|exact Same].
  clear Same. cbv zeta.
  destruct (find_byId_id _ _ _ Hcell) as [Hcin Hcid].
  destruct (find_byId_id _ _ _ Hr) as [Hrin Hrid].
  pose proof (find_some _ _ Hparent) as [Hpin Hpeq].
  apply opt_eqb_eq in Hpeq.
  pose proof (find_some _ _ Hsib) as [Hsin Hseq].
  apply andb_true_iff in Hseq. destruct Hseq as [Hseq _].
  apply opt_eqb_eq in Hseq.
  assert (Ncell : cellId <> "root").
  { intro E. rewrite <- Hcid in E. rewrite (Hpar cell Hcin E) in T.
    discriminate T. }
  assert (Nsib : GridCell.id sibling <> "root").
  { intro E. rewrite <- Hseq, (Hpar sibling Hsin E) in T. discriminate T. }
  set (keep := fun c => negb (byId cellId c)
                        && negb (byId (GridCell.id sibling) c)).
  set (upd := fun c : GridCell.t =>
                if opt_eqb (Some (GridCell.id c)) (GridCell.parentId cell)
                then mergedParent parent sibling else c).
  assert (Hupd_id : forall c, GridCell.id (upd c) = GridCell.id c).
  { intro c. unfold upd.
    destruct (opt_eqb (Some (GridCell.id c)) (GridCell.parentId cell))
      eqn:B; [|reflexivity].
    apply opt_eqb_eq in B. cbn. congruence. }
  assert (Hkeep : keep r = true).
  { unfold keep. apply andb_true_iff.
    split; apply negb_true_iff, byId_false; congruence. }
  assert (Hroot' : find (byId "root") (map upd (filter keep cells))
                   = Some (upd r)).
  { rewrite find_map_stable.
    - rewrite (find_filter_keep _ _ _ _ Hr Hkeep). reflexivity.
    - intro c. unfold byId. rewrite Hupd_id. reflexivity. }
  split; [split|].
  - eexists. exact Hroot'.
  - intros c Hc Hcroot. apply in_map_iff in Hc.
    destruct Hc as (c0 & <- & Hc0). apply filter_In in Hc0.
    destruct Hc0 as [Hc0 _]. rewrite Hupd_id in Hcroot. unfold upd.
    destruct (opt_eqb (Some (GridCell.id c0)) (GridCell.parentId cell))
      eqn:B; [|apply Hpar; assumption].
    apply opt_eqb_eq in B. cbn. apply Hpar; [exact Hpin|]. congruence.
  - eexists. split; [exact Hroot'|]. intro Hwithin. unfold upd.
    destruct (opt_eqb (Some (GridCell.id r)) (GridCell.parentId cell))
      eqn:B; [|apply sameRect_refl].
    apply opt_eqb_eq in B.
    assert (parent = r) as ->.
    { rewrite <- B, Hrid in Hparent.
      change (find (byId "root") cells = Some parent) in Hparent.
      congruence. }
    apply mergedParent_sameRect. apply (Hwithin r sibling Hr Hsin).
    congruence.
Qed.

Lemma resizeRoot_root cells w h :
  rootInv cells -> rootInv (map (resizeRoot w h) cells).
Proof.
  intros [[r Hr] Hpar].
  assert (Hid : forall c, GridCell.id (resizeRoot w h c) = GridCell.id c).
  { intro c. unfold resizeRoot. destruct (byId "root" c); reflexivity. }
  split.
  - exists (resizeRoot w h r). rewrite find_map_stable.
    + rewrite Hr. reflexivity.
    + intro c. unfold byId. rewrite Hid. reflexivity.
  - intros c Hc Hroot. apply in_map_iff in Hc.
    destruct Hc as (c0 & <- & Hc0). rewrite Hid in Hroot.
    unfold resizeRoot. destruct (byId "root" c0); cbn; apply Hpar; assumption.
Qed.

Lemma onDrag_cells st e st' :
  onDrag st e = Some st' -> gridCells st' = gridCells st.
Proof.
  intro H. destruct (truthy (draggingId st)) eqn:T.
  - destruct (truthy_dragging st T) as (d & Hd & Hne).
    apply (onDrag_dragging st e st' d Hd Hne H).
  - rewrite (onDrag_idle st e st' T H). reflexivity.
Qed.

Lemma onDragEnd_cells st e id1 id2 st' :
  onDragEnd st e id1 id2 = Some st' ->
  gridCells st' = gridCells st
  \/ exists cellId s d,
       gridCells st'
       = splitGridCell (gridCells st) cellId (Some s) d id1 id2.
Proof.
  unfold onDragEnd. intro H.
  destruct (draggingId st) as [d|]; [|injection H as <-; left; reflexivity].
  destruct (negb (truthy (Some d)));
    [injection H as <-; left; reflexivity|].
  destruct (find (winById d) (windows st)) as [win|];
    [|injection H as <-; left; reflexivity].
  destruct (snapIndicator st) as [s|];
    [|injection H as <-; left; reflexivity].
  cbv zeta in H.
  destruct (isScreenEdgeSnap win _ _ _ _);
    [injection H as <-; left; reflexivity|].
  destruct (findGridCell (gridCells st) (px e) (py e)) as [[tc|]|];
    [| injection H as <-; left; reflexivity | discriminate H].
  destruct (cursorInParentBounds _ e);
    [|injection H as <-; left; reflexivity].
  right. exists (GridCell.id tc), s, d.
  destruct (find (byWindow d) _); injection H as <-; reflexivity.
Qed.

Lemma releaseCell_cells st id :
  gridCells (releaseCell st id) = gridCells st
  \/ exists cellId,
       gridCells (releaseCell st id) = mergeGridCells (gridCells st) cellId.
Proof.
  destruct (find (byWindow id) (gridCells st)) as [cell|] eqn:F.
  - right. exists (GridCell.id cell).
    apply (releaseCell_docked st id cell F).
  - left. rewrite (releaseCell_free st id F). reflexivity.
Qed.

(** What an event other than the resize does to the arena. *)
Lemma handle_cells st ev st' :
  handle st ev = Some st' -> isResize ev = false ->
  gridCells st' = gridCells st
  \/ (exists e cellId s d id1 id2,
        ev = MouseUp e id1 id2
        /\ gridCells st'
           = splitGridCell (gridCells st) cellId (Some s) d id1 id2)
  \/ (exists cellId,
        gridCells st' = mergeGridCells (gridCells st) cellId).
Proof.
  destruct ev as [i c p | e i | e | e id1 id2 | w h | i | i p];
    cbn [handle isResize]; intros H R; try discriminate R.
  - injection H as <-. left. reflexivity.
  - injection H as <-. left. unfold onDragStart.
    destruct (find (winById i) (windows st)); reflexivity.
  - left. exact (onDrag_cells st e st' H).
  - destruct (onDragEnd_cells st e id1 id2 st' H) as [E|(cid & s & d & E)];
      [left; exact E|].
    right. left. exists e, cid, s, d, id1, id2. split; [reflexivity|exact E].
  - injection H as <-.
    destruct (releaseCell_cells st i) as [E|(cid & E)];
      [left; exact E | right; right; exists cid; exact E].
  - injection H as <-. unfold moveWindowOut.
    destruct (find (winById i) (windows st)) as [win|];
      [|left; reflexivity].
    destruct (WindowData.snapped win); [|left; reflexivity].
    destruct (releaseCell_cells st i) as [E|(cid & E)];
      [left; exact E | right; right; exists cid; exact E].
Qed.

Lemma handle_rootInv st ev st' :
  rootInv (gridCells st) -> generated ev -> handle st ev = Some st' ->
  rootInv (gridCells st').
Proof.
  intros Inv G H. destruct (isResize ev) eqn:R.
  - destruct ev; try discriminate R. cbn in H. injection H as <-.
    cbn. apply resizeRoot_root. exact Inv.
  - destruct Inv as [[r Hr] Hpar].
    destruct (handle_cells st ev st' H R)
      as [E|[(e & cid & s & d & id1 & id2 & -> & E)|(cid & E)]]; rewrite E.
    + split; [exists r|]; assumption.
    + destruct G as [N1 N2].
      apply (splitGridCell_root _ cid (Some s) d id1 id2 r N1 N2);
        [split; [exists r|]|]; assumption.
    + apply (mergeGridCells_root _ cid r); [split; [exists r|]|]; assumption.
Qed.

Lemma reachable_rootInv w h st :
  reachable w h st -> rootInv (gridCells st).
Proof.
  induction 1 as [|st ev st' _ IH G H].
  - apply rootInv_initial.
  - exact (handle_rootInv st ev st' IH G H).
Qed.

(** C9, counterexample — after the viewport shrank to 600 x 400 under a
    split root, the children keep their height of 800; closing the docked
    window merges them into the root, whose height goes from 400 to 800
    without any resize. *)
Lemma closeWindow_grows_root_counterexample : ~ rootOnlyResized.
Proof.
  intro H.
  specialize (H 1000 800 (stateAfter shrinkEvents) (CloseWindow "7")
                (closeWindow (stateAfter shrinkEvents) "7")
                shrink_reachable I eq_refl eq_refl).
  vm_compute in H. destruct H as (_ & _ & _ & Hh). discriminate Hh.
Qed.

(** C9, amended — in every reachable state a root cell exists; an event
    other than the resize leaves its rectangle as it was, provided the
    cells that name the root as their parent lie within it (a merge under
    the root gives it the envelope of root and sibling); the same for a
    merge at any cell. *)
Theorem root_kept_and_rect w h st :
  reachable w h st ->
  (exists r, rootOf st = Some r)
  /\ (forall ev st',
        generated ev -> handle st ev = Some st' -> isResize ev = false ->
        childrenWithinRoot (gridCells st) ->
        sameRoot st st')
  /\ (forall cellId,
        childrenWithinRoot (gridCells st) ->
        exists r r',
          rootOf st = Some r
          /\ find (byId "root") (mergeGridCells (gridCells st) cellId)
             = Some r'
          /\ sameRect r' r).
Proof.
  intro R. pose proof (reachable_rootInv w h st R) as Inv.
  destruct Inv as [[r Hr] Hpar].
  assert (Inv : rootInv (gridCells st)) by (split; [exists r|]; assumption).
  split; [exists r; exact Hr|]. split.
  - intros ev st' G H NR Hwithin. unfold sameRoot, rootOf. rewrite Hr.
    destruct (handle_cells st ev st' H NR)
      as [E|[(e & cid & s & d & id1 & id2 & -> & E)|(cid & E)]]; rewrite E.
    + rewrite Hr. apply sameRect_refl.
    + destruct G as [N1 N2].
      destruct (splitGridCell_root _ cid (Some s) d id1 id2 r N1 N2 Inv Hr)
        as (_ & r' & -> & S). exact S.
    + destruct (mergeGridCells_root _ cid r Inv Hr) as (_ & r' & -> & S).
      exact (S Hwithin).
  - intros cid Hwithin.
    destruct (mergeGridCells_root _ cid r Inv Hr) as (_ & r' & Hr' & S).
    exists r, r'. split; [exact Hr|]. split; [exact Hr' | exact (S Hwithin)].
Qed.

(** ** C10: the screen-edge test and the size of the window *)

Lemma isScreenEdgeSnapCandidate_iff newX newY vw vh :
  isScreenEdgeSnapCandidate newX newY vw vh = true
  <-> nearScreenEdge newX newY vw vh.
Proof.
  unfold isScreenEdgeSnapCandidate, nearScreenEdge.
  rewrite !orb_true_iff, !Qltb_true.
  unfold SNAP_THRESHOLD, WINDOW_WIDTH, WINDOW_HEIGHT. tauto.
Qed.

Lemma screenEdge_iff newX newY vw vh :
  screenEdge newX newY vw vh <> None <-> nearScreenEdge newX newY vw vh.
Proof.
  rewrite <- isScreenEdgeSnapCandidate_iff.
  unfold screenEdge, isScreenEdgeSnapCandidate.
  destruct (Qltb newX SNAP_THRESHOLD),
           (Qltb (vw - SNAP_THRESHOLD) (newX + WINDOW_WIDTH)),
           (Qltb newY SNAP_THRESHOLD),
           (Qltb (vh - SNAP_THRESHOLD) (newY + WINDOW_HEIGHT));
    cbn; split; intro H; try reflexivity; try discriminate; congruence.
Qed.

(** C10 — the screen-edge test reads the position and the viewport
    only, with the constants 300, 200 and 30: for a window without parent
    reference a pointer move returns with the screen-edge indicator as
    soon as one of the four inequalities holds at the shown position, and
    the end of the drag commits a screen-edge snap exactly on the same
    four inequalities at the candidate position, whatever the size of the
    window.  After [snapLeftEvents] the window is 500 wide: moved to the
    candidate position (500, 390) it reaches the right edge of the
    viewport, the test with its own size holds, and the test of the code
    does not: no indicator is shown. *)
Theorem screenEdge_ignores_window_size :
  (forall st e d s,
      draggingId st = Some d -> d <> "" ->
      truthy (winParentId (dragWinOf st d)) = false ->
      screenEdge (px (shownPosition st e d)) (py (shownPosition st e d))
        (innerWidth st) (innerHeight st) = Some s ->
      exists st', onDrag st e = Some st' /\ snapIndicator st' = Some s)
  /\ (forall newX newY vw vh,
        screenEdge newX newY vw vh <> None
        <-> nearScreenEdge newX newY vw vh)
  /\ (forall win newX newY vw vh,
        isScreenEdgeSnap win newX newY vw vh = true
        <-> truthy (WindowData.parentId win) = false
            /\ nearScreenEdge newX newY vw vh)
  /\ (forall st e id1 id2 d win s,
        draggingId st = Some d -> d <> "" ->
        dragWinOf st d = Some win -> snapIndicator st = Some s ->
        isScreenEdgeSnap win (px (candidateOf st e)) (py (candidateOf st e))
          (innerWidth st) (innerHeight st) = true ->
        onDragEnd st e id1 id2
        = Some (endDrag
                  (setWindows st
                     (map (snapToEdge d s (innerWidth st) (innerHeight st))
                        (windows st)))))
  /\ (let st := stateAfter snapLeftEvents in
      let e := mkPoint 950 400 in
      exists win st',
        dragWinOf st "7" = Some win
        /\ ~ sw (WindowData.size win) == WINDOW_WIDTH
        /\ onDrag st e = Some st'
        /\ snapIndicator st' = None
        /\ isScreenEdgeSnap win (px (candidateOf st e)) (py (candidateOf st e))
             (innerWidth st) (innerHeight st) = false
        /\ isScreenEdgeSnapCandidateSized (WindowData.size win)
             (px (candidateOf st e)) (py (candidateOf st e))
             (innerWidth st) (innerHeight st) = true).
Proof.
  split; [|split; [|split; [|split]]].
  - intros st e d s Hd Hne Hfree Hs.
    unfold shownPosition, clampCellOf, candidateOf in Hs. cbn [px py] in Hs.
    unfold dragWinOf in Hfree, Hs. unfold onDrag.
    rewrite Hd, (truthy_Some d Hne). cbn [negb]. cbv zeta.
    rewrite Hfree. cbn [negb]. rewrite Hs.
    eexists. split; reflexivity.
  - exact screenEdge_iff.
  - intros win newX newY vw vh. unfold isScreenEdgeSnap.
    rewrite <- isScreenEdgeSnapCandidate_iff.
    destruct (truthy (WindowData.parentId win)); intuition congruence.
  - intros st e id1 id2 d win s Hd Hne Hwin Hs Hedge. unfold onDragEnd.
    unfold dragWinOf in Hwin. rewrite Hd, (truthy_Some d Hne), Hwin, Hs.
    cbn [negb]. cbv zeta. unfold candidateOf in Hedge. cbn [px py] in Hedge.
    rewrite Hedge. reflexivity.
  - cbv zeta.
    destruct (dragWinOf (stateAfter snapLeftEvents) "7") as [win|] eqn:Ew.
    2:{ vm_compute in Ew. discriminate Ew. }
    destruct (onDrag (stateAfter snapLeftEvents) (mkPoint 950 400))
      as [st'|] eqn:Ed.
    2:{ vm_compute in Ed. discriminate Ed. }
    exists win, st'. split; [reflexivity|].
    vm_compute in Ew, Ed. injection Ew as <-. injection Ed as <-.
    split; [intro E; vm_compute in E; discriminate E|].
    split; [reflexivity|].
    split; [reflexivity|].
    split; vm_compute; reflexivity.
Qed.

(** ** The theorems at concrete inputs *)

Ltac fresh_id := cbn; intuition discriminate.

(** C3 at the arena [splitOnce]: cell 21 split on its right edge. *)
Lemma splitGridCell_halves_witness :
  exists parent' a b,
    find (byId "21") (splitGridCell splitOnce "21" (Some Right) "8" "31" "32")
    = Some parent'
    /\ find (byId "31") (splitGridCell splitOnce "21" (Some Right) "8" "31" "32")
       = Some a
    /\ find (byId "32") (splitGridCell splitOnce "21" (Some Right) "8" "31" "32")
       = Some b
    /\ GridCell.children parent' = Some ["31"; "32"]
    /\ GridCell.width a = 500 / 2
    /\ GridCell.x b = GridCell.x a + GridCell.width a.
Proof.
  destruct (splitGridCell_halves splitOnce "21" Right "8" "31" "32" cell21)
    as (parent' & a & b & H); [reflexivity | fresh_id | fresh_id
                               | discriminate |].
  cbv zeta in H.
  destruct H as (Hp & Ha & Hb & (_ & Hc & _) & _ & _ & (Hw & _ & _ & Hx & _) & _).
  exists parent', a, b. repeat split; assumption.
Defined.

(** C2 at the arena [splitOnce]: cell 21 split on its left edge, then
    merged at the new leaf 31. *)
Lemma split_then_merge_witness :
  Forall2 cellEquiv
    (mergeGridCells
       (splitGridCell splitOnce "21" (Some Left) "8" "31" "32") "31")
    splitOnce.
Proof.
  apply (split_then_merge splitOnce "21" Left "8" "31" "32" cell21).
  - repeat constructor; fresh_id.
  - reflexivity.
  - reflexivity.
  - discriminate.
  - intros c [<-|[<-|[<-|[]]]]; discriminate.
  - unfold Qle; cbn; lia.
  - unfold Qle; cbn; lia.
  - fresh_id.
  - fresh_id.
  - discriminate.
Defined.


Lemma dock_reachable : reachable 1000 800 (stateAfter dockEvents).
Proof.
  apply stateAfter_reachable; [generated_all | vm_compute; discriminate].
Qed.

(** C5 after [dockedGrabEvents]: window 7, 500 wide and 800 high, is
    clamped into the root cell, 1000 by 800, with the offset (100, 10).
    With the pointer at (990, 500) it is held inside the cell; with the
    pointer at (300, 500) the candidate (200, 490) is shown at (200, 0):
    the x coordinate is in range and kept, the y coordinate is beyond the
    upper bound 0 and lands on it. *)
Lemma onDrag_clamps_into_cell_witness :
  exists c,
    clampCellOf (stateAfter dockedGrabEvents) "7" = Some c
    /\ px (shownPosition (stateAfter dockedGrabEvents) (mkPoint 990 500) "7")
       + sw (dragSizeOf (stateAfter dockedGrabEvents) "7")
       <= GridCell.x c + GridCell.width c
    /\ px (shownPosition (stateAfter dockedGrabEvents) (mkPoint 300 500) "7")
       == 200
    /\ py (shownPosition (stateAfter dockedGrabEvents) (mkPoint 300 500) "7")
       == 0.
Proof.
  pose proof (onDrag_clamps_into_cell (stateAfter dockedGrabEvents)
                (mkPoint 990 500) "7") as H.
  destruct H as (_ & _ & _ & M);
    [vm_compute; reflexivity | discriminate |].
  pose proof (onDrag_clamps_into_cell (stateAfter dockedGrabEvents)
                (mkPoint 300 500) "7") as H.
  destruct H as (_ & _ & _ & N);
    [vm_compute; reflexivity | discriminate |].
  destruct (clampCellOf (stateAfter dockedGrabEvents) "7") as [c|] eqn:Ec.
  2:{ vm_compute in Ec. discriminate Ec. }
  exists c. split; [reflexivity|].
  cbv zeta in M, N.
  destruct M as (_ & _ & Fit & _).
  destruct N as (_ & _ & _ & _ & _ & _ & (Kept & _ & _) & (_ & _ & Above)).
  vm_compute in Ec. injection Ec as <-.
  split; [apply Fit; vm_compute; discriminate|].
  split.
  - rewrite Kept; [reflexivity | vm_compute; discriminate
                   | vm_compute; discriminate].
  - rewrite Above; [reflexivity | vm_compute; reflexivity].
Defined.

(** C6 after [snapLeftEvents]: the pointer move keeps the tree and the
    size of the window. *)
Lemma onDrag_moves_dragged_window_witness :
  gridCells (stateAfter (snapLeftEvents ++ [ MouseMove (mkPoint 460 15) ]))
  = gridCells (stateAfter snapLeftEvents)
  /\ Forall2 (fun w w' => WindowData.size w' = WindowData.size w)
       (windows (stateAfter snapLeftEvents))
       (windows (stateAfter (snapLeftEvents
                             ++ [ MouseMove (mkPoint 460 15) ]))).
Proof.
  destruct (onDrag_moves_dragged_window (stateAfter snapLeftEvents)
              (mkPoint 460 15)) as (_ & H).
  destruct (H (stateAfter (snapLeftEvents ++ [ MouseMove (mkPoint 460 15) ])))
    as (G & _ & _ & _ & F); [vm_compute; reflexivity|].
  split; [exact G|].
  apply (Forall2_impl (fun w w' => WindowData.size w' = WindowData.size w))
    in F; [exact F|].
  intros w w' (_ & _ & S & _). exact S.
Defined.

(** C9 after [dockEvents]: the two children fill the root, and closing
    window 7 leaves the rectangle of the root as it was. *)
Lemma root_kept_and_rect_witness :
  sameRoot (stateAfter dockEvents) (closeWindow (stateAfter dockEvents) "7").
Proof.
  destruct (root_kept_and_rect 1000 800 (stateAfter dockEvents)
              dock_reachable) as (_ & Step & _).
  apply (Step (CloseWindow "7")); [exact I | reflexivity | reflexivity |].
  intros r c Hr Hc Hp. vm_compute in Hr. injection Hr as <-.
  vm_compute in Hc. destruct Hc as [<-|[<-|[<-|[]]]];
    try discriminate Hp; vm_compute; intuition discriminate.
Defined.

(** C4 after [twoDockedEvents]: closing window 7 merges the tree at
    cell 41. *)
Lemma closeWindow_merges_and_removes_witness :
  gridCells (closeWindow (stateAfter twoDockedEvents) "7")
  = mergeGridCells (gridCells (stateAfter twoDockedEvents)) "41".
Proof.
  destruct (closeWindow_merges_and_removes (stateAfter twoDockedEvents) "7")
    as (_ & _ & D & _).
  apply (D cell41). vm_compute. reflexivity.
Defined.

(** C10 after [grabEvents]: the default-size window pulled to the left
    screen edge gets the indicator [left]. *)
Lemma screenEdge_ignores_window_size_witness :
  exists st',
    onDrag (stateAfter grabEvents) (mkPoint 50 5) = Some st'
    /\ snapIndicator st' = Some Left.
Proof.
  apply (proj1 screenEdge_ignores_window_size (stateAfter grabEvents)
           (mkPoint 50 5) "7" Left).
  - vm_compute. reflexivity.
  - discriminate.
  - vm_compute. reflexivity.
  - vm_compute. reflexivity.
Defined.

(** ** The handlers return in every state reached with fresh ids *)

Lemma forwardFrom_leaves seen cells :
  (forall c, In c cells -> childIds c = []) -> forwardFrom seen cells.
Proof.
  revert seen. induction cells as [|c cells IH]; cbn; intros seen H; [exact I|].
  split.
  - intros k Hk. rewrite (H c (or_introl eq_refl)) in Hk. destruct Hk.
  - apply IH. intros c' Hc'. apply H. right. exact Hc'.
Qed.

Lemma forwardFrom_map_filter (g : GridCell.t -> GridCell.t)
    (keep : GridCell.t -> bool) seen cells :
  (forall c, GridCell.id (g c) = GridCell.id c) ->
  (forall c k, In k (childIds (g c)) -> In k (childIds c)) ->
  forwardFrom seen cells -> forwardFrom seen (map g (filter keep cells)).
Proof.
  intros Hid Hch. revert seen.
  induction cells as [|c cells IH]; cbn; intros seen H; [exact I|].
  destruct H as [Hc Hrest]. destruct (keep c); cbn.
  - split.
    + intros k Hk. rewrite Hid. apply Hc, (Hch c k Hk).
    + rewrite Hid. apply IH. exact Hrest.
  - apply IH. apply (forwardFrom_incl (GridCell.id c :: seen)); [|exact Hrest].
    intros k Hk. right. exact Hk.
Qed.

Lemma forwardFrom_append (parent' : GridCell.t) cellId id1 id2 new :
  GridCell.id parent' = cellId ->
  childIds parent' = [id1; id2] ->
  (forall c, In c new -> childIds c = []) ->
  forall cells seen,
    forwardFrom seen cells ->
    ~ In id1 (seen ++ cellIds cells) -> ~ In id2 (seen ++ cellIds cells) ->
    forwardFrom seen
      (map (fun c => if byId cellId c then parent' else c) cells ++ new).
Proof.
  intros Hpid Hpch Hnew.
  induction cells as [|c cells IH]; cbn [map app forwardFrom];
    intros seen H F1 F2.
  - apply forwardFrom_leaves. exact Hnew.
  - destruct H as [Hc Hrest].
    assert (Hid : GridCell.id (if byId cellId c then parent' else c)
                  = GridCell.id c) by (apply splitUpdate_id; exact Hpid).
    assert (G : forall i, ~ In i (seen ++ cellIds (c :: cells)) ->
              ~ In i seen /\ i <> GridCell.id c
              /\ ~ In i ((GridCell.id c :: seen) ++ cellIds cells)).
    { intros i Hi. repeat split.
      - intro X. apply Hi, in_or_app. left. exact X.
      - intro X. apply Hi, in_or_app. right. left. symmetry. exact X.
      - intro X. apply Hi. cbn in X. destruct X as [X|X].
        + apply in_or_app. right. left. exact X.
        + apply in_app_or in X. apply in_or_app.
          destruct X as [X|X]; [left | right; right]; exact X. }
    destruct (G id1 F1) as (A1 & B1 & C1). destruct (G id2 F2) as (A2 & B2 & C2).
    rewrite Hid. split; [|apply IH; assumption].
    destruct (byId cellId c); [|exact Hc].
    intros k Hk. rewrite Hpch in Hk.
    destruct Hk as [<-|[<-|[]]]; split; assumption.
Qed.

Lemma newCellsOf_leaves cell s W id1 id2 :
  forall c, In c (newCellsOf cell s W id1 id2) -> childIds c = [].
Proof.
  intros c Hc. unfold newCellsOf in Hc.
  destruct s as [[]|]; cbn in Hc; destruct Hc as [<-|[<-|[]]]; reflexivity.
Qed.

Lemma splitGridCell_forward cells cellId s W id1 id2 :
  forward cells ->
  ~ In id1 (cellIds cells) -> ~ In id2 (cellIds cells) ->
  forward (splitGridCell cells cellId s W id1 id2).
Proof.
  intros H F1 F2. unfold splitGridCell.
  destruct (find (byId cellId) cells) as [cell|] eqn:Hfind; [|exact H].
  cbv zeta. apply (forwardFrom_append _ cellId id1 id2); auto.
  - apply (find_byId_id _ _ _ Hfind).
  - unfold childIds, splitParent. cbn. apply newCellsOf_ids_any.
  - apply newCellsOf_leaves.
Qed.

Lemma mergeGridCells_forward cells cellId :
  forward cells -> forward (mergeGridCells cells cellId).
Proof.
  intro H. unfold mergeGridCells.
  destruct (find (byId cellId) cells) as [cell|]; [|exact H].
  destruct (negb (truthy (GridCell.parentId cell))); [exact H|].
  destruct (find (fun c => opt_eqb (Some (GridCell.id c))
                             (GridCell.parentId cell)) cells)
    as [parent|] eqn:Hparent; [|exact H].
  destruct (find (fun c => opt_eqb (GridCell.parentId c)
                             (GridCell.parentId cell)
                           && negb (byId cellId c)) cells)
    as [sibling|]; [|exact H].
  cbv zeta. apply find_some in Hparent. destruct Hparent as [_ Hpeq].
  apply opt_eqb_eq in Hpeq.
  apply forwardFrom_map_filter; [| |exact H].
  - intro c.
    destruct (opt_eqb (Some (GridCell.id c)) (GridCell.parentId cell)) eqn:B;
      [|reflexivity].
    apply opt_eqb_eq in B. cbn. congruence.
  - intros c k.
    destruct (opt_eqb (Some (GridCell.id c)) (GridCell.parentId cell));
      [intros [] | auto].
Qed.

Lemma resizeRoot_forward cells w h :
  forward cells -> forward (map (resizeRoot w h) cells).
Proof.
  intro H. rewrite <- (filter_true cells) at 1.
  apply forwardFrom_map_filter; [| |exact H].
  - intro c. unfold resizeRoot. destruct (byId "root" c); reflexivity.
  - intros c k. unfold resizeRoot, childIds.
    destruct (byId "root" c); auto.
Qed.

Lemma handle_forward st ev st' :
  forward (gridCells st) -> freshIds st ev -> handle st ev = Some st' ->
  forward (gridCells st').
Proof.
  intros F G H. destruct (isResize ev) eqn:R.
  - destruct ev; try discriminate R. cbn in H. injection H as <-.
    cbn. apply resizeRoot_forward. exact F.
  - destruct (handle_cells st ev st' H R)
      as [E|[(e & cid & s & d & id1 & id2 & -> & E)|(cid & E)]]; rewrite E.
    + exact F.
    + destruct G as [N1 N2]. apply splitGridCell_forward; assumption.
    + apply mergeGridCells_forward. exact F.
Qed.

Lemma reachableFresh_forward w h st :
  reachableFresh w h st -> forward (gridCells st).
Proof.
  induction 1 as [|st ev st' _ IH G H].
  - cbn. split; [intros k []|exact I].
  - exact (handle_forward st ev st' IH G H).
Qed.

(** X20 — every handler returns in every state reached with ids that
    never repeat: the recursive search of [findGridCell] comes to an end,
    the fuel of the embedding is enough. *)
Lemma handle_returns w h st ev :
  reachableFresh w h st -> exists st', handle st ev = Some st'.
Proof.
  intro R. pose proof (reachableFresh_forward w h st R) as F.
  destruct ev; cbn [handle]; try (eexists; reflexivity).
  - apply onDrag_returns. exact F.
  - apply onDragEnd_returns. exact F.
Qed.

Lemma reachableFresh_reachable w h st :
  reachableFresh w h st -> reachable w h st.
Proof.
  induction 1 as [|st ev st' _ IH G H]; [apply reach_init|].
  apply (reach_step w h st ev st' IH); [|exact H].
  destruct ev; try exact I. destruct G as [N1 N2].
  destruct (reachable_rootInv w h st IH) as [[r Hr] _].
  destruct (find_byId_id _ _ _ Hr) as [Hin Hid].
  assert (Hroot : In "root" (cellIds (gridCells st))).
  { rewrite <- Hid. apply in_map. exact Hin. }
  split; intro E; [apply N1 | apply N2]; rewrite E; exact Hroot.
Qed.

(** * Further properties of the handlers *)

(** ** Locating the cell under a point *)

Lemma overChildren_cases cells search cell ids r :
  overChildren cells search cell ids = Some r ->
  (r = Some cell
   /\ forall k ch, In k ids -> find (byId k) cells = Some ch ->
                   search ch = Some None)
  \/ (exists k ch result,
        In k ids /\ find (byId k) cells = Some ch
        /\ search ch = Some (Some result) /\ r = Some result).
Proof.
  induction ids as [|k ids IH]; cbn [overChildren]; intro H.
  - left. injection H as <-. split; [reflexivity|]. intros k ch [].
  - destruct (find (byId k) cells) as [child|] eqn:Hfind.
    + destruct (search child) as [[result|]|] eqn:Hs; [| |discriminate].
      * right. exists k, child, result. injection H as <-.
        repeat split; [left; reflexivity | exact Hfind | exact Hs].
      * destruct (IH H) as [[-> Hall]|(k' & ch & res & Hin & Hf & Hs' & ->)].
        -- left. split; [reflexivity|]. intros k' ch [<-|Hin] Hf.
           ++ congruence.
           ++ exact (Hall k' ch Hin Hf).
        -- right. exists k', ch, res. repeat split; auto. right. exact Hin.
    + destruct (IH H) as [[-> Hall]|(k' & ch & res & Hin & Hf & Hs' & ->)].
      * left. split; [reflexivity|]. intros k' ch [<-|Hin] Hf.
        -- congruence.
        -- exact (Hall k' ch Hin Hf).
      * right. exists k', ch, res. repeat split; auto. right. exact Hin.
Qed.

Lemma findInCell_null cells ptx pty fuel c :
  findInCell cells ptx pty fuel c = Some None -> inCell ptx pty c = false.
Proof.
  destruct fuel as [|fuel]; cbn [findInCell]; [discriminate|].
  destruct (inCell ptx pty c); [|reflexivity].
  destruct (GridCell.children c) as [[|k rest]|]; try discriminate.
  intro H. apply overChildren_cases in H.
  destruct H as [[H _]|(k' & ch & res & _ & _ & _ & H)]; discriminate H.
Qed.

Lemma findInCell_sound cells ptx pty fuel : forall c r,
  find (byId (GridCell.id c)) cells = Some c ->
  findInCell cells ptx pty fuel c = Some (Some r) ->
  inCell ptx pty r = true
  /\ find (byId (GridCell.id r)) cells = Some r
  /\ (forall k ch, In k (childIds r) -> find (byId k) cells = Some ch ->
                   inCell ptx pty ch = false).
Proof.
  induction fuel as [|fuel IH]; intros c r Hc H; cbn [findInCell] in H;
    [discriminate|].
  destruct (inCell ptx pty c) eqn:Hin; [|discriminate].
  assert (Hself : GridCell.children c = None \/ GridCell.children c = Some [] ->
                  Some (Some c) = Some (Some r) ->
                  inCell ptx pty r = true
                  /\ find (byId (GridCell.id r)) cells = Some r
                  /\ (forall k ch, In k (childIds r) ->
                                   find (byId k) cells = Some ch ->
                                   inCell ptx pty ch = false)).
  { intros Hch [= <-]. repeat split; [exact Hin | exact Hc|].
    intros k ch Hk. unfold childIds in Hk.
    destruct Hch as [E|E]; rewrite E in Hk; destruct Hk. }
  destruct (GridCell.children c) as [[|k rest]|] eqn:Hch;
    [apply Hself; auto | | apply Hself; auto].
  apply overChildren_cases in H.
  destruct H as [[[= ->] Hall]|(k' & ch & res & Hk & Hf & Hs & [= ->])].
  - repeat split; [exact Hin | exact Hc|].
    intros k' ch Hk Hf. unfold childIds in Hk. rewrite Hch in Hk.
    apply (findInCell_null cells ptx pty fuel). exact (Hall k' ch Hk Hf).
  - apply (IH ch res); [|exact Hs].
    destruct (find_byId_id _ _ _ Hf) as [_ <-]. exact Hf.
Qed.

Lemma findGridCell_first cells ptx pty r :
  findGridCell cells ptx pty = Some (Some r) ->
  find (byId (GridCell.id r)) cells = Some r.
Proof.
  unfold findGridCell. intro H.
  destruct (find (byId "root") cells) as [root|] eqn:Hroot; [|discriminate].
  assert (Hc : find (byId (GridCell.id root)) cells = Some root).
  { destruct (find_byId_id _ _ _ Hroot) as [_ ->]. exact Hroot. }
  apply (findInCell_sound cells ptx pty _ root r Hc H).
Qed.

(** X1 — the cell [findGridCell] returns is a cell of the arena, the
    first with its id; it contains the point (left and top edges included,
    right and bottom excluded); and none of its children found in the
    arena contains the point: the search stops at the deepest cell. *)
Theorem findGridCell_sound cells ptx pty r :
  findGridCell cells ptx pty = Some (Some r) ->
  In r cells
  /\ inCell ptx pty r = true
  /\ find (byId (GridCell.id r)) cells = Some r
  /\ (forall k ch, In k (childIds r) -> find (byId k) cells = Some ch ->
                   inCell ptx pty ch = false).
Proof.
  unfold findGridCell. intro H.
  destruct (find (byId "root") cells) as [root|] eqn:Hroot; [|discriminate].
  assert (Hc : find (byId (GridCell.id root)) cells = Some root).
  { destruct (find_byId_id _ _ _ Hroot) as [_ ->]. exact Hroot. }
  destruct (findInCell_sound cells ptx pty _ root r Hc H) as (A & B & C).
  split; [apply (find_some _ _ B)|]. repeat split; assumption.
Qed.

(** X2 — [findGridCell] returns no cell exactly when no cell is called
    [root] or the point is outside the root; in an arena whose children
    come later, a point inside the root always gets a cell. *)
Theorem findGridCell_none_iff cells ptx pty :
  (findGridCell cells ptx pty = Some None
   <-> (find (byId "root") cells = None
        \/ exists root, find (byId "root") cells = Some root
                        /\ inCell ptx pty root = false))
  /\ (forall root,
        forward cells -> find (byId "root") cells = Some root ->
        inCell ptx pty root = true ->
        exists r, findGridCell cells ptx pty = Some (Some r)).
Proof.
  assert (Hnull : findGridCell cells ptx pty = Some None ->
                  find (byId "root") cells = None
                  \/ exists root, find (byId "root") cells = Some root
                                  /\ inCell ptx pty root = false).
  { unfold findGridCell. intro H.
    destruct (find (byId "root") cells) as [root|]; [|left; reflexivity].
    right. exists root. split; [reflexivity|].
    exact (findInCell_null _ _ _ _ _ H). }
  split; [split; [exact Hnull|]|].
  - unfold findGridCell. intros [->|(root & -> & Hout)]; [reflexivity|].
    cbn [findInCell]. rewrite Hout. reflexivity.
  - intros root F Hroot Hin.
    destruct (findGridCell_returns cells ptx pty F) as [[r|] Hr].
    + exists r. exact Hr.
    + exfalso. destruct (Hnull Hr) as [E|(root' & E & Hout)]; congruence.
Qed.

(** ** Which edge is indicated *)

Lemma horizontalEdge_cases relativeX cellWidth :
  (horizontalEdge relativeX cellWidth = Some Left <-> relativeX < 30)
  /\ (horizontalEdge relativeX cellWidth = Some Right
      <-> 30 <= relativeX /\ cellWidth - 30 < relativeX)
  /\ horizontalEdge relativeX cellWidth <> Some Top
  /\ horizontalEdge relativeX cellWidth <> Some Bottom.
Proof.
  unfold horizontalEdge, SNAP_THRESHOLD.
  destruct (Qltb relativeX 30) eqn:A;
    [apply Qltb_true in A | apply Qltb_false in A];
    (destruct (Qltb (cellWidth - 30) relativeX) eqn:B;
     [apply Qltb_true in B | apply Qltb_false in B]);
    repeat split; try discriminate; try tauto; try (intros; lra);
    try (intros [? ?]; lra).
Qed.

Lemma verticalEdge_cases relativeY cellHeight :
  (verticalEdge relativeY cellHeight = Some Top <-> relativeY < 30)
  /\ (verticalEdge relativeY cellHeight = Some Bottom
      <-> 30 <= relativeY /\ cellHeight - 30 < relativeY)
  /\ verticalEdge relativeY cellHeight <> Some Left
  /\ verticalEdge relativeY cellHeight <> Some Right.
Proof.
  unfold verticalEdge, SNAP_THRESHOLD.
  destruct (Qltb relativeY 30) eqn:A;
    [apply Qltb_true in A | apply Qltb_false in A];
    (destruct (Qltb (cellHeight - 30) relativeY) eqn:B;
     [apply Qltb_true in B | apply Qltb_false in B]);
    repeat split; try discriminate; try tauto; try (intros; lra);
    try (intros [? ?]; lra).
Qed.

Lemma anyEdge_cases rx ry w h :
  (anyEdge rx ry w h = Some Left <-> rx < 30)
  /\ (anyEdge rx ry w h = Some Right <-> 30 <= rx /\ w - 30 < rx)
  /\ (anyEdge rx ry w h = Some Top
      <-> 30 <= rx /\ rx <= w - 30 /\ ry < 30)
  /\ (anyEdge rx ry w h = Some Bottom
      <-> 30 <= rx /\ rx <= w - 30 /\ 30 <= ry /\ h - 30 < ry).
Proof.
  unfold anyEdge, horizontalEdge, verticalEdge, SNAP_THRESHOLD.
  destruct (Qltb rx 30) eqn:A;
    [apply Qltb_true in A | apply Qltb_false in A];
    (destruct (Qltb (w - 30) rx) eqn:B;
     [apply Qltb_true in B | apply Qltb_false in B]);
    (destruct (Qltb ry 30) eqn:C;
     [apply Qltb_true in C | apply Qltb_false in C]);
    (destruct (Qltb (h - 30) ry) eqn:D;
     [apply Qltb_true in D | apply Qltb_false in D]);
    repeat split; try discriminate; try tauto; try (intros; lra);
    try (intros [? ?]; lra); try (intros (? & ? & ?); lra);
    try (intros (? & ? & ? & ?); lra).
Qed.

(** X3 — in a cell other than the root, wider than tall, the indicator
    is never [top] nor [bottom], and it is [left] exactly within 30 of the
    left edge; taller than wide, it is never [left] nor [right], and it is
    [top] exactly within 30 of the top edge. *)
Theorem cellEdge_aspect tc e :
  GridCell.id tc <> "root" ->
  (GridCell.height tc < GridCell.width tc ->
   cellEdge tc e <> Some Top /\ cellEdge tc e <> Some Bottom
   /\ (cellEdge tc e = Some Left <-> px e - GridCell.x tc < 30))
  /\ (GridCell.width tc < GridCell.height tc ->
      cellEdge tc e <> Some Left /\ cellEdge tc e <> Some Right
      /\ (cellEdge tc e = Some Top <-> py e - GridCell.y tc < 30)).
Proof.
  intro Hid. unfold cellEdge.
  replace (String.eqb (GridCell.id tc) "root") with false
    by (symmetry; apply String.eqb_neq; exact Hid).
  split; intro H.
  - replace (Qltb (GridCell.height tc) (GridCell.width tc)) with true
      by (symmetry; apply Qltb_true; exact H).
    destruct (horizontalEdge_cases (px e - GridCell.x tc) (GridCell.width tc))
      as (A & _ & C & D).
    repeat split; try assumption; apply A.
  - replace (Qltb (GridCell.height tc) (GridCell.width tc)) with false
      by (symmetry; apply Qltb_false; lra).
    replace (Qltb (GridCell.width tc) (GridCell.height tc)) with true
      by (symmetry; apply Qltb_true; exact H).
    destruct (verticalEdge_cases (py e - GridCell.y tc) (GridCell.height tc))
      as (A & _ & C & D).
    repeat split; try assumption; apply A.
Qed.

(** X4 — in the root cell and in a square cell the four edges are tried
    in the order left, right, top, bottom, each within 30 of the edge: the
    first that holds is the indicator. *)
Theorem cellEdge_four_edges tc e :
  GridCell.id tc = "root" \/ GridCell.width tc == GridCell.height tc ->
  let rx := px e - GridCell.x tc in
  let ry := py e - GridCell.y tc in
  (cellEdge tc e = Some Left <-> rx < 30)
  /\ (cellEdge tc e = Some Right
      <-> 30 <= rx /\ GridCell.width tc - 30 < rx)
  /\ (cellEdge tc e = Some Top
      <-> 30 <= rx /\ rx <= GridCell.width tc - 30 /\ ry < 30)
  /\ (cellEdge tc e = Some Bottom
      <-> 30 <= rx /\ rx <= GridCell.width tc - 30 /\ 30 <= ry
          /\ GridCell.height tc - 30 < ry).
Proof.
  intros H. cbv zeta.
  assert (E : cellEdge tc e
              = anyEdge (px e - GridCell.x tc) (py e - GridCell.y tc)
                  (GridCell.width tc) (GridCell.height tc)).
  { unfold cellEdge. destruct (String.eqb (GridCell.id tc) "root") eqn:R;
      [reflexivity|].
    destruct H as [H|H]; [apply String.eqb_neq in R; contradiction|].
    replace (Qltb (GridCell.height tc) (GridCell.width tc)) with false
      by (symmetry; apply Qltb_false; lra).
    replace (Qltb (GridCell.width tc) (GridCell.height tc)) with false
      by (symmetry; apply Qltb_false; lra).
    reflexivity. }
  rewrite E. apply anyEdge_cases.
Qed.

(** X5 — the screen-edge test tries left, right, top, bottom in this
    order with the constants 30, 300 and 200: each edge is the indicator
    exactly when its inequality holds and those before it fail. *)
Theorem screenEdge_priority newX newY vw vh :
  (screenEdge newX newY vw vh = Some Left <-> newX < 30)
  /\ (screenEdge newX newY vw vh = Some Right
      <-> 30 <= newX /\ vw - 30 < newX + 300)
  /\ (screenEdge newX newY vw vh = Some Top
      <-> 30 <= newX /\ newX + 300 <= vw - 30 /\ newY < 30)
  /\ (screenEdge newX newY vw vh = Some Bottom
      <-> 30 <= newX /\ newX + 300 <= vw - 30 /\ 30 <= newY
          /\ vh - 30 < newY + 200).
Proof.
  unfold screenEdge, SNAP_THRESHOLD, WINDOW_WIDTH, WINDOW_HEIGHT.
  destruct (Qltb newX 30) eqn:A;
    [apply Qltb_true in A | apply Qltb_false in A];
    (destruct (Qltb (vw - 30) (newX + 300)) eqn:B;
     [apply Qltb_true in B | apply Qltb_false in B]);
    (destruct (Qltb newY 30) eqn:C;
     [apply Qltb_true in C | apply Qltb_false in C]);
    (destruct (Qltb (vh - 30) (newY + 200)) eqn:D;
     [apply Qltb_true in D | apply Qltb_false in D]);
    repeat split; try discriminate; try tauto; try (intros; lra);
    try (intros [? ?]; lra); try (intros (? & ? & ?); lra);
    try (intros (? & ? & ? & ?); lra).
Qed.

(** ** Ids of the arena under split and merge *)

Lemma splitGridCell_cellIds cells cellId s W id1 id2 cell :
  find (byId cellId) cells = Some cell ->
  cellIds (splitGridCell cells cellId s W id1 id2)
  = cellIds cells ++ [id1; id2].
Proof.
  intro H. rewrite (splitGridCell_found _ _ _ _ _ _ _ H).
  unfold cellIds. rewrite map_app, map_map, newCellsOf_ids_any. f_equal.
  apply map_ext. intro c. apply splitUpdate_id.
  apply (find_byId_id _ _ _ H).
Qed.

Lemma NoDup_filter_map {A B : Type} (f : A -> B) (keep : A -> bool) l :
  NoDup (map f l) -> NoDup (map f (filter keep l)).
Proof.
  induction l as [|a l IH]; cbn; intro H; [constructor|].
  inversion H as [|? ? Hnotin Hnd]; subst.
  destruct (keep a); cbn; [|apply IH; exact Hnd].
  constructor; [|apply IH; exact Hnd].
  intro Hin. apply Hnotin. apply in_map_iff in Hin.
  destruct Hin as (b & E & Hb). apply filter_In in Hb.
  apply in_map_iff. exists b. tauto.
Qed.

Lemma mergeGridCells_cellIds cells cellId :
  mergeGridCells cells cellId = cells
  \/ exists sibling,
       In sibling cells /\ GridCell.id sibling <> cellId
       /\ cellIds (mergeGridCells cells cellId)
          = cellIds (filter (fun c => negb (byId cellId c)
                                      && negb (byId (GridCell.id sibling) c))
                       cells).
Proof.
  unfold mergeGridCells.
  destruct (find (byId cellId) cells) as [cell|]; [|left; reflexivity].
  destruct (negb (truthy (GridCell.parentId cell))); [left; reflexivity|].
  destruct (find (fun c => opt_eqb (Some (GridCell.id c))
                             (GridCell.parentId cell)) cells)
    as [parent|] eqn:Hparent; [|left; reflexivity].
  destruct (find (fun c => opt_eqb (GridCell.parentId c)
                             (GridCell.parentId cell)
                           && negb (byId cellId c)) cells)
    as [sibling|] eqn:Hsib; [|left; reflexivity].
  right. exists sibling. apply find_some in Hsib. destruct Hsib as [Hin Hs].
  apply andb_true_iff in Hs. destruct Hs as [_ Hs].
  apply negb_true_iff, byId_false in Hs.
  split; [exact Hin|]. split; [exact Hs|].
  cbv zeta. unfold cellIds. rewrite map_map. apply map_ext. intro c.
  apply find_some in Hparent. destruct Hparent as [_ Hpeq].
  apply opt_eqb_eq in Hpeq.
  destruct (opt_eqb (Some (GridCell.id c)) (GridCell.parentId cell)) eqn:B;
    [|reflexivity].
  apply opt_eqb_eq in B. cbn. congruence.
Qed.

Lemma mergeGridCells_NoDup cells cellId :
  NoDup (cellIds cells) -> NoDup (cellIds (mergeGridCells cells cellId)).
Proof.
  intro H. destruct (mergeGridCells_cellIds cells cellId)
    as [->|(sibling & _ & _ & ->)]; [exact H|].
  apply NoDup_filter_map. exact H.
Qed.

Lemma splitGridCell_NoDup cells cellId s W id1 id2 :
  NoDup (cellIds cells) ->
  ~ In id1 (cellIds cells) -> ~ In id2 (cellIds cells) -> id1 <> id2 ->
  NoDup (cellIds (splitGridCell cells cellId s W id1 id2)).
Proof.
  intros H F1 F2 N.
  destruct (find (byId cellId) cells) as [cell|] eqn:Hfind.
  - rewrite (splitGridCell_cellIds _ _ _ _ _ _ _ Hfind).
    apply NoDup_app; [exact H | |].
    + repeat constructor; cbn; intuition.
    + intros k Hk [<-|[<-|[]]]; contradiction.
  - unfold splitGridCell. rewrite Hfind. exact H.
Qed.

Lemma mergeGridCells_length cells cellId :
  NoDup (cellIds cells) ->
  mergeGridCells cells cellId = cells
  \/ (List.length (mergeGridCells cells cellId) + 2 = List.length cells)%nat.
Proof.
  intro Hnd. unfold mergeGridCells.
  destruct (find (byId cellId) cells) as [cell|] eqn:Hcell;
    [|left; reflexivity].
  destruct (negb (truthy (GridCell.parentId cell))); [left; reflexivity|].
  destruct (find (fun c => opt_eqb (Some (GridCell.id c))
                             (GridCell.parentId cell)) cells)
    as [parent|]; [|left; reflexivity].
  destruct (find (fun c => opt_eqb (GridCell.parentId c)
                             (GridCell.parentId cell)
                           && negb (byId cellId c)) cells)
    as [sibling|] eqn:Hsib; [|left; reflexivity].
  right. cbv zeta. rewrite length_map.
  destruct (find_byId_id _ _ _ Hcell) as [Hcin Hcid].
  apply find_some in Hsib. destruct Hsib as [Hsin Hs].
  apply andb_true_iff in Hs. destruct Hs as [_ Hs].
  apply negb_true_iff, byId_false in Hs.
  set (keep := fun c => negb (byId cellId c)
                        && negb (byId (GridCell.id sibling) c)).
  pose proof (filter_length keep cells) as L.
  set (gone := filter (fun c => negb (keep c)) cells) in *.
  assert (Hgone : forall c, In c gone <->
            In c cells /\ (GridCell.id c = cellId
                           \/ GridCell.id c = GridCell.id sibling)).
  { intro c. unfold gone. rewrite filter_In. unfold keep.
    rewrite negb_andb, !negb_involutive, orb_true_iff, !byId_true.
    tauto. }
  assert (Hnd' : NoDup (cellIds gone)).
  { unfold gone. apply NoDup_filter_map. exact Hnd. }
  assert (L1 : (List.length (cellIds gone) <= 2)%nat).
  { apply (NoDup_incl_length (l' := [cellId; GridCell.id sibling]) Hnd').
    intros k Hk. apply in_map_iff in Hk. destruct Hk as (c & <- & Hc).
    apply Hgone in Hc. cbn. intuition. }
  assert (L2 : (2 <= List.length (cellIds gone))%nat).
  { apply (NoDup_incl_length (l := [cellId; GridCell.id sibling])).
    - repeat constructor; cbn; intuition.
    - intros k [<-|[<-|[]]].
      + rewrite <- Hcid. apply in_map, Hgone. auto.
      + apply in_map, Hgone. auto. }
  unfold cellIds in L1, L2. rewrite length_map in L1, L2. lia.
Qed.

(** X6 — [splitGridCell] on an existing cell keeps every id in its place
    and appends exactly the two drawn ids; with ids that are new and
    distinct, an arena without repeated ids stays without. *)
Theorem splitGridCell_appends_ids cells cellId s W id1 id2 cell :
  find (byId cellId) cells = Some cell ->
  cellIds (splitGridCell cells cellId s W id1 id2)
  = cellIds cells ++ [id1; id2]
  /\ (NoDup (cellIds cells) ->
      ~ In id1 (cellIds cells) -> ~ In id2 (cellIds cells) -> id1 <> id2 ->
      NoDup (cellIds (splitGridCell cells cellId s W id1 id2))).
Proof.
  intro H. split.
  - exact (splitGridCell_cellIds _ _ _ _ _ _ _ H).
  - apply splitGridCell_NoDup.
Qed.

(** X7 — in an arena without repeated ids [mergeGridCells] either returns
    the arena as it is or removes exactly two cells, the one merged among
    them; it never adds an id and never repeats one. *)
Theorem mergeGridCells_drops_pair cells cellId :
  NoDup (cellIds cells) ->
  NoDup (cellIds (mergeGridCells cells cellId))
  /\ incl (cellIds (mergeGridCells cells cellId)) (cellIds cells)
  /\ (mergeGridCells cells cellId = cells
      \/ ((List.length (mergeGridCells cells cellId) + 2
           = List.length cells)%nat
          /\ ~ In cellId (cellIds (mergeGridCells cells cellId)))).
Proof.
  intro Hnd. split; [exact (mergeGridCells_NoDup cells cellId Hnd)|].
  assert (Hsub : forall keep, incl (cellIds (filter keep cells)) (cellIds cells)).
  { intros keep k Hk. apply in_map_iff in Hk. destruct Hk as (c & <- & Hc).
    apply filter_In in Hc. apply in_map. tauto. }
  split.
  - destruct (mergeGridCells_cellIds cells cellId)
      as [->|(sibling & _ & _ & ->)]; [apply incl_refl | apply Hsub].
  - destruct (mergeGridCells_length cells cellId Hnd) as [E|L];
      [left; exact E|].
    destruct (mergeGridCells_cellIds cells cellId)
      as [E|(sibling & _ & _ & E)]; [left; exact E|].
    right. split; [exact L|]. rewrite E. intro Hin.
    apply in_map_iff in Hin. destruct Hin as (c & Hid & Hc).
    apply filter_In in Hc. destruct Hc as [_ Hk].
    apply andb_true_iff in Hk. destruct Hk as [Hk _].
    apply negb_true_iff, byId_false in Hk. contradiction.
Qed.

(** X8 — in every reachable state merging at the root returns the arena
    as it is, and so does merging at an id that names no cell. *)
Theorem mergeGridCells_root_noop w h st :
  reachable w h st ->
  mergeGridCells (gridCells st) "root" = gridCells st
  /\ (forall cellId,
        find (byId cellId) (gridCells st) = None ->
        mergeGridCells (gridCells st) cellId = gridCells st).
Proof.
  intro R. destruct (reachable_rootInv w h st R) as [[r Hr] Hpar]. split.
  - unfold mergeGridCells. rewrite Hr.
    destruct (find_byId_id _ _ _ Hr) as [Hin Hid].
    rewrite (Hpar r Hin Hid). reflexivity.
  - intros cellId H. unfold mergeGridCells. rewrite H. reflexivity.
Qed.

(** ** States reached with ids that are new and distinct *)

Lemma reachableUnique_fresh w h st :
  reachableUnique w h st -> reachableFresh w h st.
Proof.
  induction 1 as [|st ev st' _ IH F D H]; [apply fresh_init|].
  exact (fresh_step w h st ev st' IH F H).
Qed.

Lemma reachableUnique_run w h evs : forall st st',
  reachableUnique w h st -> drawsNewIds st evs -> run st evs = Some st' ->
  reachableUnique w h st'.
Proof.
  induction evs as [|ev evs IH]; intros st st' R G H; cbn in H.
  - injection H as <-. exact R.
  - cbn in G. destruct G as (F & D & G).
    destruct (handle st ev) as [st1|] eqn:E; [|discriminate].
    apply (IH st1 st'); auto. exact (unique_step w h st ev st1 R F D E).
Qed.

Lemma handle_unique st ev st' :
  NoDup (cellIds (gridCells st)) -> freshIds st ev -> distinctIds ev ->
  handle st ev = Some st' ->
  NoDup (cellIds (gridCells st'))
  /\ Nat.odd (List.length (gridCells st'))
     = Nat.odd (List.length (gridCells st)).
Proof.
  intros Hnd F D H. destruct (isResize ev) eqn:R.
  - destruct ev; try discriminate R. cbn in H. injection H as <-. cbn.
    rewrite length_map. split; [|reflexivity].
    unfold cellIds. rewrite map_map.
    rewrite (map_ext _ GridCell.id); [exact Hnd|].
    intro c. unfold resizeRoot. destruct (byId "root" c); reflexivity.
  - destruct (handle_cells st ev st' H R)
      as [E|[(e & cid & s & d & id1 & id2 & -> & E)|(cid & E)]]; rewrite E.
    + split; [exact Hnd | reflexivity].
    + destruct F as [F1 F2]. cbn in D. split.
      * apply splitGridCell_NoDup; assumption.
      * destruct (find (byId cid) (gridCells st)) as [cell|] eqn:Hfind.
        -- rewrite (splitGridCell_length _ _ _ _ _ _ _ Hfind).
           reflexivity.
        -- unfold splitGridCell. rewrite Hfind. reflexivity.
    + split; [apply mergeGridCells_NoDup; exact Hnd|].
      destruct (mergeGridCells_length (gridCells st) cid Hnd) as [->|L];
        [reflexivity|].
      replace (List.length (gridCells st))
        with (S (S (List.length (mergeGridCells (gridCells st) cid))))
        by lia.
      reflexivity.
Qed.

(** X9 — in every state reached with ids that are new and distinct, no
    two cells have the same id, the children of a cell come later in the
    arena than the cell, and the number of cells is odd. *)
Theorem arena_ids_unique w h st :
  reachableUnique w h st ->
  NoDup (cellIds (gridCells st))
  /\ forward (gridCells st)
  /\ Nat.odd (List.length (gridCells st)) = true.
Proof.
  intro R. split; [|split].
  - induction R as [|st ev st' _ IH F D H].
    + cbn. constructor; [intros []|constructor].
    + exact (proj1 (handle_unique st ev st' IH F D H)).
  - exact (reachableFresh_forward w h st (reachableUnique_fresh w h st R)).
  - assert (Both : NoDup (cellIds (gridCells st))
                   /\ Nat.odd (List.length (gridCells st)) = true).
    { induction R as [|st ev st' _ IH F D H].
      - split; [|reflexivity]. cbn. constructor; [intros []|constructor].
      - destruct IH as [Hnd Hodd].
        destruct (handle_unique st ev st' Hnd F D H) as [Hnd' Hlen].
        split; [exact Hnd' | congruence]. }
    exact (proj2 Both).
Qed.

(** ** The viewport resize *)

(** X10 — the resize gives the root the new width and height and sets
    the viewport; every other field of every cell, every other cell and
    every window are as they were (descendants are not rescaled); of two
    resizes in a row only the last one counts. *)
Theorem handleResize_root_only st w h :
  windows (handleResize st w h) = windows st
  /\ innerWidth (handleResize st w h) = w
  /\ innerHeight (handleResize st w h) = h
  /\ Forall2 (fun c c' =>
                GridCell.id c' = GridCell.id c
                /\ GridCell.x c' = GridCell.x c
                /\ GridCell.y c' = GridCell.y c
                /\ GridCell.windowId c' = GridCell.windowId c
                /\ GridCell.children c' = GridCell.children c
                /\ GridCell.parentId c' = GridCell.parentId c
                /\ (GridCell.id c = "root" ->
                    GridCell.width c' = w /\ GridCell.height c' = h)
                /\ (GridCell.id c <> "root" -> c' = c))
       (gridCells st) (gridCells (handleResize st w h))
  /\ (forall w2 h2,
        handleResize (handleResize st w h) w2 h2 = handleResize st w2 h2).
Proof.
  do 3 (split; [reflexivity|]). split.
  - cbn. apply Forall2_map_self. intros c _. unfold resizeRoot.
    destruct (byId "root" c) eqn:B; cbn.
    + apply byId_true in B. repeat split; try reflexivity. congruence.
    + apply byId_false in B. repeat split; try reflexivity; congruence.
  - intros w2 h2. unfold handleResize. cbn. f_equal.
    rewrite map_map. apply map_ext. intro c. unfold resizeRoot.
    destruct (byId "root" c) eqn:B; [|rewrite B; reflexivity].
    unfold byId in *. cbn. rewrite B. reflexivity.
Qed.

(** ** Starting a drag *)

(** X11 — [onDragStart] on an id that names no window returns the state
    as it is; on a known window it records the drag without touching the
    windows, the tree or the indicator, and from then on the candidate
    position is the position of the window plus the displacement of the
    pointer; a window with no cell to be clamped in is shown there. *)
Theorem onDragStart_grab st e id :
  (find (winById id) (windows st) = None -> onDragStart st e id = st)
  /\ (forall win,
        find (winById id) (windows st) = Some win ->
        draggingId (onDragStart st e id) = Some id
        /\ windows (onDragStart st e id) = windows st
        /\ gridCells (onDragStart st e id) = gridCells st
        /\ snapIndicator (onDragStart st e id) = snapIndicator st
        /\ dragPos (onDragStart st e id) = e
        /\ forall e2,
             px (candidateOf (onDragStart st e id) e2)
             == px (WindowData.position win) + (px e2 - px e)
             /\ py (candidateOf (onDragStart st e id) e2)
                == py (WindowData.position win) + (py e2 - py e)
             /\ (clampCellOf st id = None ->
                 shownPosition (onDragStart st e id) e2 id
                 = candidateOf (onDragStart st e id) e2)).
Proof.
  unfold onDragStart. split.
  - intros ->. reflexivity.
  - intros win ->. repeat split; try reflexivity.
    + cbn. ring.
    + cbn. ring.
    + intro Hc. unfold shownPosition.
      replace (clampCellOf _ id) with (clampCellOf st id) by reflexivity.
      rewrite Hc. reflexivity.
Qed.

(** ** Pointer moves: only the last one counts *)

Lemma moveWindow_id d p w : WindowData.id (moveWindow d p w) = WindowData.id w.
Proof. unfold moveWindow. destruct (winById d w); reflexivity. Qed.

Lemma moveWindow_twice d p q w :
  moveWindow d q (moveWindow d p w) = moveWindow d q w.
Proof.
  unfold moveWindow at 2. destruct (winById d w) eqn:B.
  - unfold moveWindow, winById in *. cbn. rewrite B. reflexivity.
  - reflexivity.
Qed.

Lemma find_moved d p ws :
  find (winById d) (map (moveWindow d p) ws)
  = option_map (moveWindow d p) (find (winById d) ws).
Proof.
  apply find_map_stable. intro w. unfold winById.
  rewrite moveWindow_id. reflexivity.
Qed.

Lemma parentCellOf_moved cells d p win :
  parentCellOf cells (option_map (moveWindow d p) win)
  = parentCellOf cells win.
Proof.
  destruct win as [w|]; [|reflexivity]. cbn. unfold moveWindow.
  destruct (winById d w); reflexivity.
Qed.

Lemma clampPosition_moved cc d p win x y :
  clampPosition cc (option_map (moveWindow d p) win) x y
  = clampPosition cc win x y.
Proof.
  destruct win as [w|]; [|reflexivity]. cbn. unfold moveWindow.
  destruct (winById d w); reflexivity.
Qed.

Lemma winParentId_moved d p win :
  winParentId (option_map (moveWindow d p) win) = winParentId win.
Proof.
  destruct win as [w|]; [|reflexivity]. cbn. unfold moveWindow.
  destruct (winById d w); reflexivity.
Qed.

(** X12 — a pointer move after another one gives the state the second
    move alone gives: the moves before the last leave no trace. *)
Theorem onDrag_last_pointer st e1 e2 st1 :
  onDrag st e1 = Some st1 -> onDrag st1 e2 = onDrag st e2.
Proof.
  intro H. destruct (truthy (draggingId st)) eqn:T.
  2:{ rewrite (onDrag_idle st e1 st1 T H). reflexivity. }
  destruct (truthy_dragging st T) as (d & Hd & Hne).
  destruct (onDrag_dragging st e1 st1 d Hd Hne H)
    as (Hw & Hg & Hdr & Hoff & _ & Hiw & Hih & _).
  unfold onDrag. rewrite Hdr, Hd, (truthy_Some d Hne). cbn [negb]. cbv zeta.
  rewrite Hw, Hg, Hoff, Hiw, Hih.
  rewrite find_moved, parentCellOf_moved, clampPosition_moved,
    winParentId_moved, map_map.
  rewrite (map_ext _ _ (fun w => moveWindow_twice d _ _ w)).
  reflexivity.
Qed.

(** ** Ending a drag *)

Lemma Forall2_same {A : Type} (R : A -> A -> Prop) l :
  (forall a, R a a) -> Forall2 R l l.
Proof. intro H. induction l; constructor; auto. Qed.

Lemma snapToEdge_frame d s vw vh w :
  WindowData.id (snapToEdge d s vw vh w) = WindowData.id w
  /\ WindowData.color (snapToEdge d s vw vh w) = WindowData.color w
  /\ (WindowData.id w <> d -> snapToEdge d s vw vh w = w).
Proof.
  unfold snapToEdge. destruct (winById d w) eqn:B; repeat split;
    try reflexivity.
  intro N. apply winById_true in B. contradiction.
Qed.

Lemma dockInCell_frame d s newCell w :
  WindowData.id (dockInCell d s newCell w) = WindowData.id w
  /\ WindowData.color (dockInCell d s newCell w) = WindowData.color w
  /\ (WindowData.id w <> d -> dockInCell d s newCell w = w).
Proof.
  unfold dockInCell. destruct (winById d w) eqn:B; repeat split;
    try reflexivity.
  intro N. apply winById_true in B. contradiction.
Qed.

(** Every way [onDragEnd] returns. *)
Lemma onDragEnd_cases st e id1 id2 st' :
  onDragEnd st e id1 id2 = Some st' ->
  (st' = st
   /\ (truthy (draggingId st) = false
       \/ exists d, draggingId st = Some d /\ dragWinOf st d = None))
  \/ (exists d win,
        draggingId st = Some d /\ d <> "" /\ dragWinOf st d = Some win
        /\ (st' = endDrag st
            \/ (exists s,
                  snapIndicator st = Some s
                  /\ st' = endDrag
                             (setWindows st
                                (map (snapToEdge d s (innerWidth st)
                                        (innerHeight st)) (windows st))))
            \/ (exists s tc,
                  snapIndicator st = Some s
                  /\ findGridCell (gridCells st) (px e) (py e)
                     = Some (Some tc)
                  /\ let cells' := splitGridCell (gridCells st)
                                     (GridCell.id tc) (Some s) d id1 id2 in
                     (find (byWindow d) cells' = None
                      /\ st' = endDrag (setGridCells st cells'))
                     \/ (exists newCell,
                           find (byWindow d) cells' = Some newCell
                           /\ st' = endDrag
                                      (setWindows (setGridCells st cells')
                                         (map (dockInCell d s newCell)
                                            (windows st))))))).
Proof.
  unfold onDragEnd, dragWinOf. intro H.
  destruct (draggingId st) as [d|] eqn:Hd.
  2:{ left. injection H as <-. split; [reflexivity | left; reflexivity]. }
  destruct (truthy (Some d)) eqn:T; cbn [negb] in H.
  2:{ left. injection H as <-. split; [reflexivity | left; reflexivity]. }
  assert (Hne : d <> "").
  { cbn in T. apply negb_true_iff, String.eqb_neq in T. exact T. }
  destruct (find (winById d) (windows st)) as [win|] eqn:Hwin.
  2:{ left. injection H as <-. split; [reflexivity|]. right. exists d.
      split; [reflexivity | exact Hwin]. }
  right. exists d, win. repeat split; try assumption; try reflexivity.
  destruct (snapIndicator st) as [s|];
    [|left; injection H as <-; reflexivity].
  cbv zeta in H.
  destruct (isScreenEdgeSnap win _ _ _ _).
  { right. left. exists s. injection H as <-. split; reflexivity. }
  destruct (findGridCell (gridCells st) (px e) (py e)) as [[tc|]|];
    [| left; injection H as <-; reflexivity | discriminate H].
  destruct (cursorInParentBounds _ e);
    [|left; injection H as <-; reflexivity].
  right. right. exists s, tc. split; [reflexivity|]. split; [reflexivity|].
  cbv zeta.
  destruct (find (byWindow d) _) as [newCell|]; injection H as <-.
  - right. exists newCell. split; reflexivity.
  - left. split; reflexivity.
Qed.

Lemma onDragEnd_same_or_idle st e id1 id2 st' :
  onDragEnd st e id1 id2 = Some st' ->
  st' = st \/ (draggingId st' = None /\ snapIndicator st' = None).
Proof.
  intro H. apply onDragEnd_cases in H.
  destruct H as [[-> _]|(d & win & _ & _ & _ & H)]; [left; reflexivity|].
  right. destruct H as [->|[(s & _ & ->)|(s & tc & _ & _ & H)]];
    try (split; reflexivity).
  cbv zeta in H. destruct H as [[_ ->]|(newCell & _ & ->)];
    split; reflexivity.
Qed.

(** X13 — [onDragEnd] never changes the viewport, the offset or the last
    pointer position; it returns the state as it is or clears the drag and
    the indicator, and it clears them whenever the dragged window exists;
    without an indicator it changes neither windows nor tree; it never
    changes the id or the colour of a window, nor a window other than
    the dragged one. *)
Theorem onDragEnd_frame st e id1 id2 st' :
  onDragEnd st e id1 id2 = Some st' ->
  innerWidth st' = innerWidth st /\ innerHeight st' = innerHeight st
  /\ dragOffset st' = dragOffset st /\ dragPos st' = dragPos st
  /\ (st' = st \/ (draggingId st' = None /\ snapIndicator st' = None))
  /\ (forall d, draggingId st = Some d -> d <> "" ->
                dragWinOf st d <> None ->
                draggingId st' = None /\ snapIndicator st' = None)
  /\ (snapIndicator st = None ->
      windows st' = windows st /\ gridCells st' = gridCells st)
  /\ Forall2 (fun w w' =>
                WindowData.id w' = WindowData.id w
                /\ WindowData.color w' = WindowData.color w
                /\ (draggingId st <> Some (WindowData.id w) -> w' = w))
       (windows st) (windows st').
Proof.
  intro H. apply onDragEnd_cases in H.
  assert (Same : Forall2 (fun w w' =>
                WindowData.id w' = WindowData.id w
                /\ WindowData.color w' = WindowData.color w
                /\ (draggingId st <> Some (WindowData.id w) -> w' = w))
       (windows st) (windows st)).
  { apply Forall2_same. intro w. repeat split; reflexivity. }
  destruct H as [[-> Hwhy]|(d & win & Hd & Hne & Hwin & H)].
  - do 4 (split; [reflexivity|]). split; [left; reflexivity|].
    split; [|split; [intros _; split; reflexivity | exact Same]].
    intros d Hd Hne Hw. exfalso.
    destruct Hwhy as [T|(d' & Hd' & Hw')].
    + rewrite Hd in T. cbn in T.
      apply negb_false_iff, String.eqb_eq in T. contradiction.
    + apply Hw. congruence.
  - destruct H as [->|[(s & Hs & ->)|(s & tc & Hs & _ & H)]].
    + repeat split; try reflexivity; try (right; split; reflexivity);
        exact Same.
    + repeat split; try reflexivity; try (right; split; reflexivity);
        try congruence.
      cbn. apply Forall2_map_self. intros w _.
      destruct (snapToEdge_frame d s (innerWidth st) (innerHeight st) w)
        as (A & B & C).
      repeat split; try assumption. intro N. apply C. congruence.
    + cbv zeta in H.
      destruct H as [[_ ->]|(newCell & _ & ->)];
        repeat split; try reflexivity; try (right; split; reflexivity);
        try congruence; try exact Same.
      cbn. apply Forall2_map_self. intros w _.
      destruct (dockInCell_frame d s newCell w) as (A & B & C).
      repeat split; try assumption. intro N. apply C. congruence.
Qed.

(** ** Committing a screen-edge snap *)

(** X14 — a dragged window without parent reference, an indicator, and
    the candidate position at a screen edge: [onDragEnd] returns, leaves
    the tree as it is, clears the drag, and gives the window the position
    and size of the half viewport of the indicator, the indicator as
    snapped tag and no parent reference; that rectangle has half the area
    of the viewport and lies within it. *)
Theorem onDragEnd_screen_edge st e id1 id2 d win s :
  draggingId st = Some d -> d <> "" ->
  dragWinOf st d = Some win ->
  truthy (WindowData.parentId win) = false ->
  snapIndicator st = Some s ->
  nearScreenEdge (px (candidateOf st e)) (py (candidateOf st e))
    (innerWidth st) (innerHeight st) ->
  exists st',
    onDragEnd st e id1 id2 = Some st'
    /\ gridCells st' = gridCells st
    /\ draggingId st' = None /\ snapIndicator st' = None
    /\ Forall (fun w' =>
                 WindowData.id w' = d ->
                 WindowData.position w'
                 = fst (edgeRect s (innerWidth st) (innerHeight st))
                 /\ WindowData.size w'
                    = snd (edgeRect s (innerWidth st) (innerHeight st))
                 /\ WindowData.snapped w' = Some s
                 /\ WindowData.parentId w' = None) (windows st')
    /\ (let p := fst (edgeRect s (innerWidth st) (innerHeight st)) in
        let z := snd (edgeRect s (innerWidth st) (innerHeight st)) in
        sw z * sh z == innerWidth st * innerHeight st / 2
        /\ (0 <= innerWidth st -> 0 <= innerHeight st ->
            0 <= px p /\ 0 <= py p
            /\ px p + sw z <= innerWidth st
            /\ py p + sh z <= innerHeight st)).
Proof.
  intros Hd Hne Hwin Hfree Hs Hnear.
  assert (Hedge : isScreenEdgeSnap win (px (candidateOf st e))
                    (py (candidateOf st e)) (innerWidth st) (innerHeight st)
                  = true).
  { unfold isScreenEdgeSnap. rewrite Hfree.
    apply isScreenEdgeSnapCandidate_iff. exact Hnear. }
  eexists. split.
  { unfold onDragEnd. unfold dragWinOf in Hwin.
    rewrite Hd, (truthy_Some d Hne), Hwin, Hs. cbn [negb]. cbv zeta.
    unfold candidateOf in Hedge. cbn [px py] in Hedge. rewrite Hedge.
    reflexivity. }
  split; [reflexivity|]. split; [reflexivity|]. split; [reflexivity|]. split.
  - cbn. apply Forall_forall. intros w' Hin Hid.
    apply in_map_iff in Hin. destruct Hin as (w & <- & _).
    unfold snapToEdge in *. destruct (winById d w) eqn:B.
    + cbn. repeat split; reflexivity.
    + apply winById_true in Hid. congruence.
  - cbv zeta. split.
    + destruct s; cbn; field.
    + intros Pw Ph.
      assert (innerWidth st / 2 + innerWidth st / 2 == innerWidth st)
        by field.
      assert (innerHeight st / 2 + innerHeight st / 2 == innerHeight st)
        by field.
      destruct s; cbn; repeat split; lra.
Qed.

(** ** Committing a dock inside a cell *)

(** X15 — a dragged window that occupies no cell, an indicator, no
    screen-edge snap, a cell under the pointer and the pointer within the
    parent bounds: [onDragEnd] returns, splits that cell, clears the drag,
    and the window takes exactly the rectangle of the new leaf on the side
    of the indicator, which is the half of the cell on that side and lists
    the window as occupant; the window gets the indicator as snapped tag
    and the id of the split cell as parent reference. *)
Theorem onDragEnd_docks_in_cell st e id1 id2 d win s tc :
  draggingId st = Some d -> d <> "" ->
  dragWinOf st d = Some win ->
  snapIndicator st = Some s ->
  isScreenEdgeSnap win (px (candidateOf st e)) (py (candidateOf st e))
    (innerWidth st) (innerHeight st) = false ->
  findGridCell (gridCells st) (px e) (py e) = Some (Some tc) ->
  cursorInParentBounds (parentCellOf (gridCells st) (Some win)) e = true ->
  find (byWindow d) (gridCells st) = None ->
  exists st' newCell,
    onDragEnd st e id1 id2 = Some st'
    /\ gridCells st'
       = splitGridCell (gridCells st) (GridCell.id tc) (Some s) d id1 id2
    /\ draggingId st' = None /\ snapIndicator st' = None
    /\ In newCell (gridCells st')
    /\ GridCell.id newCell = edgeSide s id1 id2
    /\ GridCell.windowId newCell = Some d
    /\ GridCell.parentId newCell = Some (GridCell.id tc)
    /\ (0 <= GridCell.width tc -> 0 <= GridCell.height tc ->
        within newCell tc)
    /\ match s with
       | Left =>
           GridCell.x newCell = GridCell.x tc
           /\ GridCell.y newCell = GridCell.y tc
           /\ GridCell.width newCell = GridCell.width tc / 2
           /\ GridCell.height newCell = GridCell.height tc
       | Right =>
           GridCell.x newCell = GridCell.x tc + GridCell.width tc / 2
           /\ GridCell.y newCell = GridCell.y tc
           /\ GridCell.width newCell = GridCell.width tc / 2
           /\ GridCell.height newCell = GridCell.height tc
       | Top =>
           GridCell.x newCell = GridCell.x tc
           /\ GridCell.y newCell = GridCell.y tc
           /\ GridCell.width newCell = GridCell.width tc
           /\ GridCell.height newCell = GridCell.height tc / 2
       | Bottom =>
           GridCell.x newCell = GridCell.x tc
           /\ GridCell.y newCell = GridCell.y tc + GridCell.height tc / 2
           /\ GridCell.width newCell = GridCell.width tc
           /\ GridCell.height newCell = GridCell.height tc / 2
       end
    /\ Forall (fun w' =>
                 WindowData.id w' = d ->
                 WindowData.position w'
                 = mkPoint (GridCell.x newCell) (GridCell.y newCell)
                 /\ WindowData.size w'
                    = mkSize (GridCell.width newCell)
                        (GridCell.height newCell)
                 /\ WindowData.snapped w' = Some s
                 /\ WindowData.parentId w' = Some (GridCell.id tc))
         (windows st').
Proof.
  intros Hd Hne Hwin Hs Hedge Htc Hcur Hfree.
  pose proof (findGridCell_first _ _ _ _ Htc) as Hfirst.
  destruct (find_byId_id _ _ _ Hfirst) as [Htcin _].
  set (cells' := splitGridCell (gridCells st) (GridCell.id tc) (Some s) d
                   id1 id2).
  set (new := newCellsOf tc (Some s) d id1 id2).
  set (upd := fun c : GridCell.t =>
                if byId (GridCell.id tc) c then splitParent tc new else c).
  assert (Hcells : cells' = map upd (gridCells st) ++ new)
    by exact (splitGridCell_found _ _ _ _ _ _ _ Hfirst).
  assert (Hold : find (byWindow d) (map upd (gridCells st)) = None).
  { apply find_all_false. intros c' Hc'. apply in_map_iff in Hc'.
    destruct Hc' as (c & <- & Hc). unfold upd.
    destruct (byId (GridCell.id tc) c); [reflexivity|].
    exact (find_none _ _ Hfree c Hc). }
  assert (Htcocc : byWindow d tc = false)
    by exact (find_none _ _ Hfree tc Htcin).
  assert (Hnew : exists newCell,
            find (byWindow d) new = Some newCell /\ In newCell new
            /\ GridCell.id newCell = edgeSide s id1 id2
            /\ GridCell.windowId newCell = Some d
            /\ GridCell.parentId newCell = Some (GridCell.id tc)
            /\ match s with
               | Left =>
                   GridCell.x newCell = GridCell.x tc
                   /\ GridCell.y newCell = GridCell.y tc
                   /\ GridCell.width newCell = GridCell.width tc / 2
                   /\ GridCell.height newCell = GridCell.height tc
               | Right =>
                   GridCell.x newCell = GridCell.x tc + GridCell.width tc / 2
                   /\ GridCell.y newCell = GridCell.y tc
                   /\ GridCell.width newCell = GridCell.width tc / 2
                   /\ GridCell.height newCell = GridCell.height tc
               | Top =>
                   GridCell.x newCell = GridCell.x tc
                   /\ GridCell.y newCell = GridCell.y tc
                   /\ GridCell.width newCell = GridCell.width tc
                   /\ GridCell.height newCell = GridCell.height tc / 2
               | Bottom =>
                   GridCell.x newCell = GridCell.x tc
                   /\ GridCell.y newCell
                      = GridCell.y tc + GridCell.height tc / 2
                   /\ GridCell.width newCell = GridCell.width tc
                   /\ GridCell.height newCell = GridCell.height tc / 2
               end).
  { unfold byWindow in Htcocc.
    assert (Hdd : String.eqb d d = true) by apply String.eqb_refl.
    unfold new, newCellsOf. destruct s; cbn [Edge_eqb find];
      unfold byWindow at 1; cbn [GridCell.windowId is_id];
      rewrite ?Hdd; try (unfold byWindow at 1; cbn [GridCell.windowId];
                         rewrite Htcocc; cbn [is_id]; rewrite ?Hdd);
      eexists; (split; [reflexivity|]); cbn;
      repeat split; auto. }
  destruct Hnew as (newCell & Hfind & Hin & Hid & Hocc & Hpar & Hgeo).
  assert (Hfound : find (byWindow d) cells' = Some newCell).
  { rewrite Hcells, find_app, Hold. exact Hfind. }
  exists (endDrag (setWindows (setGridCells st cells')
                     (map (dockInCell d s newCell) (windows st)))), newCell.
  split.
  { unfold onDragEnd. unfold dragWinOf in Hwin.
    rewrite Hd, (truthy_Some d Hne), Hwin, Hs. cbn [negb]. cbv zeta.
    unfold candidateOf in Hedge. cbn [px py] in Hedge.
    rewrite Hedge, Htc, Hcur. fold cells'. rewrite Hfound. reflexivity. }
  split; [reflexivity|]. split; [reflexivity|]. split; [reflexivity|].
  split.
  { cbn. rewrite Hcells. apply in_or_app. right. exact Hin. }
  do 3 (split; [assumption|]). split.
  { intros Pw Ph.
    assert (GridCell.width tc / 2 + GridCell.width tc / 2
            == GridCell.width tc) by field.
    assert (GridCell.height tc / 2 + GridCell.height tc / 2
            == GridCell.height tc) by field.
    unfold within.
    destruct s; destruct Hgeo as (-> & -> & -> & ->); repeat split; lra. }
  split; [exact Hgeo|].
  cbn. apply Forall_forall. intros w' Hw' Hwid.
  apply in_map_iff in Hw'. destruct Hw' as (w & <- & _).
  unfold dockInCell in *. destruct (winById d w) eqn:B.
  - cbn. rewrite Hpar. repeat split; reflexivity.
  - apply winById_true in Hwid. congruence.
Qed.

(** ** Moving a window out *)

Lemma floatWindow_id id p w :
  WindowData.id (floatWindow id p w) = WindowData.id w.
Proof. unfold floatWindow. destruct (winById id w); reflexivity. Qed.

Lemma releaseCell_windowIds st id :
  map WindowData.id (windows (releaseCell st id))
  = map WindowData.id (windows st).
Proof.
  unfold releaseCell.
  destruct (find (byWindow id) (gridCells st)) as [cell|]; [|reflexivity].
  cbv zeta.
  destruct (find (otherOccupant id) _) as [rc|]; [|reflexivity].
  cbn. rewrite map_map. apply map_ext. intro w. apply rehome_id.
Qed.

(** X16 — [moveWindowOut] never adds, removes or reorders windows; on
    an id that names no window, or a window whose snapped tag is none, it
    returns the state as it is; on a snapped window it leaves the tree as
    [closeWindow] would and gives the window the given position, the
    default size, no snapped tag and no parent reference. *)
Theorem moveWindowOut_keeps_registry st id p :
  map WindowData.id (windows (moveWindowOut st id p))
  = map WindowData.id (windows st)
  /\ (forall win,
        (find (winById id) (windows st) = None
         \/ (find (winById id) (windows st) = Some win
             /\ WindowData.snapped win = None)) ->
        moveWindowOut st id p = st)
  /\ (forall win s,
        find (winById id) (windows st) = Some win ->
        WindowData.snapped win = Some s ->
        gridCells (moveWindowOut st id p) = gridCells (closeWindow st id)
        /\ Forall (fun w' =>
                     WindowData.id w' = id ->
                     WindowData.position w' = p
                     /\ WindowData.size w' = mkSize WINDOW_WIDTH WINDOW_HEIGHT
                     /\ WindowData.snapped w' = None
                     /\ WindowData.parentId w' = None)
             (windows (moveWindowOut st id p))).
Proof.
  split; [|split].
  - unfold moveWindowOut.
    destruct (find (winById id) (windows st)) as [win|]; [|reflexivity].
    destruct (WindowData.snapped win); [|reflexivity].
    cbn. rewrite map_map.
    rewrite (map_ext _ _ (floatWindow_id id p)).
    apply releaseCell_windowIds.
  - intros win [H|[H Hs]]; unfold moveWindowOut; rewrite H;
      [|rewrite Hs]; reflexivity.
  - intros win s H Hs. unfold moveWindowOut. rewrite H, Hs.
    split; [reflexivity|].
    cbn. apply Forall_forall. intros w' Hin Hid.
    apply in_map_iff in Hin. destruct Hin as (w & <- & _).
    unfold floatWindow in *. destruct (winById id w) eqn:B.
    + cbn. repeat split; reflexivity.
    + apply winById_true in Hid. congruence.
Qed.

(** ** Adding and closing *)

(** X17 — adding a window whose id names no window and occupies no cell
    and then closing it gives back the state. *)
Theorem addWindow_then_close st id color p :
  find (winById id) (windows st) = None ->
  find (byWindow id) (gridCells st) = None ->
  closeWindow (addWindow st id color p) id = st.
Proof.
  intros Hw Hc. unfold closeWindow.
  rewrite releaseCell_free by exact Hc.
  unfold addWindow. cbn [windows setWindows].
  rewrite filter_app. cbn [filter].
  replace (winById id _) with true
    by (symmetry; apply winById_true; reflexivity).
  cbn [negb]. rewrite app_nil_r.
  rewrite filter_all_true.
  - destruct st; reflexivity.
  - intros w Hin. apply negb_true_iff. exact (find_none _ _ Hw w Hin).
Qed.

(** ** The indicator and the drag *)

(** X18 — in every reachable state an indicator is set only while a
    window is being dragged. *)
Theorem indicator_only_while_dragging w h st :
  reachable w h st -> snapIndicator st <> None -> draggingId st <> None.
Proof.
  induction 1 as [|st ev st' _ IH G H]; [intro N; exfalso; apply N; reflexivity|].
  destruct ev as [i c p | e i | e | e id1 id2 | rw rh | i | i p];
    cbn [handle] in H.
  - injection H as <-. exact IH.
  - injection H as <-. unfold onDragStart.
    destruct (find (winById i) (windows st)); [|exact IH].
    intros _. discriminate.
  - destruct (truthy (draggingId st)) eqn:T.
    + destruct (truthy_dragging st T) as (d & Hd & Hne).
      destruct (onDrag_dragging st e st' d Hd Hne H)
        as (_ & _ & Hdr & _).
      intros _. congruence.
    + rewrite (onDrag_idle st e st' T H). exact IH.
  - destruct (onDragEnd_same_or_idle st e id1 id2 st' H)
      as [->|[_ Hs]]; [exact IH|].
    intro N. contradiction.
  - injection H as <-. exact IH.
  - injection H as <-. unfold closeWindow, releaseCell.
    destruct (find (byWindow i) (gridCells st)); cbv zeta;
      [destruct (find (otherOccupant i) _)|]; exact IH.
  - injection H as <-. unfold moveWindowOut, releaseCell.
    destruct (find (winById i) (windows st)) as [win|]; [|exact IH].
    destruct (WindowData.snapped win); [|exact IH].
    destruct (find (byWindow i) (gridCells st)); cbv zeta;
      [destruct (find (otherOccupant i) _)|]; exact IH.
Qed.

(** ** The snap indicator as it is drawn *)

(** X19 — without an indicator nothing is drawn; with the indicator [s]
    what is drawn is the screen half of [s] or the half, on the side [s],
    of the cell under the last pointer position, and that half is exactly
    the rectangle of the leaf that splitting the cell on [s] creates for
    the window. *)
Theorem snapOverlay_is_new_leaf st :
  (snapIndicator st = None -> snapOverlay st = Some None)
  /\ (forall s h,
        snapIndicator st = Some s -> snapOverlay st = Some (Some h) ->
        h = ScreenHalf s
        \/ exists tc,
             findGridCell (gridCells st) (px (dragPos st)) (py (dragPos st))
             = Some (Some tc)
             /\ h = cellHighlight tc s
             /\ forall W id1 id2,
                  exists newCell,
                    In newCell (newCellsOf tc (Some s) W id1 id2)
                    /\ GridCell.id newCell = edgeSide s id1 id2
                    /\ GridCell.windowId newCell = Some W
                    /\ h = CellHalf (GridCell.y newCell) (GridCell.x newCell)
                            (GridCell.width newCell)
                            (GridCell.height newCell)).
Proof.
  split.
  - intro H. unfold snapOverlay. rewrite H. reflexivity.
  - intros s h Hs H. unfold snapOverlay in H. rewrite Hs in H.
    cbv zeta in H.
    match type of H with
    | (if ?b then _ else _) = _ => destruct b
    end.
    + left. congruence.
    + right.
      destruct (findGridCell (gridCells st) (px (dragPos st))
                  (py (dragPos st))) as [[tc|]|]; try discriminate.
      exists tc. split; [reflexivity|].
      assert (E : h = cellHighlight tc s) by congruence.
      split; [exact E|]. intros W id1 id2. rewrite E.
      destruct s; cbn; eexists.
      1, 3: split; [left; reflexivity|].
      3, 4: split; [right; left; reflexivity|].
      all: cbn; repeat split; reflexivity.
Qed.

(** ** The further properties at concrete inputs *)

Lemma splitOnce_forward : forward splitOnce.
Proof.
  cbn. split.
  - intros k [<-|[<-|[]]]; (split; [intros [] | discriminate]).
  - split; [intros k [] | split; [intros k [] | exact I]].
Qed.

Lemma hover_drawsNewIds :
  drawsNewIds (initialState 1000 800) (dockEvents ++ [CloseWindow "7"]).
Proof.
  cbn. repeat split; try exact I; try discriminate;
    intros H; repeat (destruct H as [H|H]; [discriminate H|]); exact H.
Qed.

Lemma dockClosed_unique :
  reachableUnique 1000 800 (stateAfter (dockEvents ++ [CloseWindow "7"])).
Proof.
  apply (reachableUnique_run 1000 800 (dockEvents ++ [CloseWindow "7"])
           (initialState 1000 800));
    [apply unique_init | exact hover_drawsNewIds | vm_compute; reflexivity].
Qed.

(** X1 at [splitOnce]: the point (600, 300) is in the right leaf. *)
Lemma findGridCell_sound_witness :
  In cell22 splitOnce /\ inCell 600 300 cell22 = true.
Proof.
  destruct (findGridCell_sound splitOnce 600 300 cell22) as (A & B & _);
    [vm_compute; reflexivity|].
  split; assumption.
Defined.

(** X2 at [splitOnce]: the point (600, 300) inside the root gets a cell. *)
Lemma findGridCell_none_iff_witness :
  exists r, findGridCell splitOnce 600 300 = Some (Some r).
Proof.
  apply (proj2 (findGridCell_none_iff splitOnce 600 300)
           (GridCell.mk "root" 0 0 1000 800 None (Some ["21"; "22"]) None)).
  - exact splitOnce_forward.
  - reflexivity.
  - vm_compute. reflexivity.
Defined.

(** X3 at the right leaf of [splitOnce], taller than wide. *)
Lemma cellEdge_aspect_witness :
  cellEdge cell22 (mkPoint 510 400) <> Some Left.
Proof.
  destruct (cellEdge_aspect cell22 (mkPoint 510 400)) as [_ T];
    [discriminate|].
  apply T. vm_compute. reflexivity.
Defined.

(** X4 at the root of a 1000 x 800 viewport, pointer at (15, 15): left
    wins over top. *)
Lemma cellEdge_four_edges_witness :
  cellEdge (rootCell 1000 800) (mkPoint 15 15) = Some Left.
Proof.
  apply (cellEdge_four_edges (rootCell 1000 800) (mkPoint 15 15)
           (or_introl eq_refl)).
  vm_compute. reflexivity.
Defined.

(** X6 at [splitOnce]: cell 21 is split with the ids 31 and 32. *)
Lemma splitGridCell_appends_ids_witness :
  cellIds (splitGridCell splitOnce "21" (Some Top) "8" "31" "32")
  = ["root"; "21"; "22"; "31"; "32"].
Proof.
  apply (splitGridCell_appends_ids splitOnce "21" (Some Top) "8" "31" "32"
           cell21).
  reflexivity.
Defined.

(** X7 at [splitOnce]: merging cell 21 removes the two leaves. *)
Lemma mergeGridCells_drops_pair_witness :
  NoDup (cellIds (mergeGridCells splitOnce "21")).
Proof.
  apply (mergeGridCells_drops_pair splitOnce "21").
  repeat constructor; cbn; intuition discriminate.
Defined.

(** X8 after [dockEvents]. *)
Lemma mergeGridCells_root_noop_witness :
  mergeGridCells (gridCells (stateAfter dockEvents)) "root"
  = gridCells (stateAfter dockEvents).
Proof.
  exact (proj1 (mergeGridCells_root_noop 1000 800 (stateAfter dockEvents)
                  dock_reachable)).
Defined.

(** X9 after [dockEvents] and the closing of the window. *)
Lemma arena_ids_unique_witness :
  NoDup (cellIds
           (gridCells (stateAfter (dockEvents ++ [CloseWindow "7"])))).
Proof.
  exact (proj1 (arena_ids_unique 1000 800 _ dockClosed_unique)).
Defined.

(** X11 on the initial state: no window to grab. *)
Lemma onDragStart_grab_witness :
  onDragStart (initialState 1000 800) (mkPoint 10 10) "7"
  = initialState 1000 800.
Proof.
  apply (onDragStart_grab (initialState 1000 800) (mkPoint 10 10) "7").
  reflexivity.
Defined.

(** X12 after [snapLeftEvents]: two pointer moves. *)
Lemma onDrag_last_pointer_witness :
  onDrag (stateAfter (snapLeftEvents ++ [ MouseMove (mkPoint 460 15) ]))
    (mkPoint 950 400)
  = onDrag (stateAfter snapLeftEvents) (mkPoint 950 400).
Proof.
  apply (onDrag_last_pointer (stateAfter snapLeftEvents) (mkPoint 460 15)).
  vm_compute. reflexivity.
Defined.

(** X13 after [edgeHoverEvents]: the drop clears the drag. *)
Lemma onDragEnd_frame_witness :
  draggingId
    (stateAfter (edgeHoverEvents ++ [ MouseUp (mkPoint 50 5) "11" "12" ]))
  = None.
Proof.
  destruct (onDragEnd_frame (stateAfter edgeHoverEvents) (mkPoint 50 5)
              "11" "12"
              (stateAfter (edgeHoverEvents
                           ++ [ MouseUp (mkPoint 50 5) "11" "12" ])))
    as (_ & _ & _ & _ & _ & Hclear & _); [vm_compute; reflexivity|].
  apply (Hclear "7"); [vm_compute; reflexivity | discriminate|].
  vm_compute. discriminate.
Defined.

(** X14 after [edgeHoverEvents]: the drop at the left screen edge. *)
Lemma onDragEnd_screen_edge_witness :
  exists st',
    onDragEnd (stateAfter edgeHoverEvents) (mkPoint 50 5) "11" "12" = Some st'
    /\ gridCells st' = gridCells (stateAfter edgeHoverEvents).
Proof.
  destruct (dragWinOf (stateAfter edgeHoverEvents) "7") as [win|] eqn:Ew.
  2:{ vm_compute in Ew. discriminate Ew. }
  assert (Hp : truthy (WindowData.parentId win) = false).
  { pose proof Ew as X. vm_compute in X. injection X as <-. reflexivity. }
  destruct (onDragEnd_screen_edge (stateAfter edgeHoverEvents)
              (mkPoint 50 5) "11" "12" "7" win Left)
    as (st' & H & G & _).
  - vm_compute. reflexivity.
  - discriminate.
  - exact Ew.
  - exact Hp.
  - vm_compute. reflexivity.
  - left. vm_compute. reflexivity.
  - exists st'. split; assumption.
Defined.

(** X15 after [cellHoverEvents]: the drop near the right edge of the
    root cell. *)
Lemma onDragEnd_docks_in_cell_witness :
  exists st' newCell,
    onDragEnd (stateAfter cellHoverEvents) (mkPoint 990 400) "21" "22"
    = Some st'
    /\ GridCell.id newCell = "22"
    /\ GridCell.x newCell = 0 + 1000 / 2.
Proof.
  destruct (dragWinOf (stateAfter cellHoverEvents) "7") as [win|] eqn:Ew.
  2:{ vm_compute in Ew. discriminate Ew. }
  assert (Hp : WindowData.parentId win = None).
  { pose proof Ew as X. vm_compute in X. injection X as <-. reflexivity. }
  destruct (onDragEnd_docks_in_cell (stateAfter cellHoverEvents)
              (mkPoint 990 400) "21" "22" "7" win Right (rootCell 1000 800))
    as (st' & newCell & H & _ & _ & _ & _ & Hid & _ & _ & _ & Hgeo & _).
  - vm_compute. reflexivity.
  - discriminate.
  - exact Ew.
  - vm_compute. reflexivity.
  - unfold isScreenEdgeSnap. rewrite Hp. vm_compute. reflexivity.
  - vm_compute. reflexivity.
  - unfold parentCellOf. rewrite Hp. reflexivity.
  - vm_compute. reflexivity.
  - exists st', newCell. split; [exact H|]. split; [exact Hid|].
    apply Hgeo.
Defined.

(** X16 after [dockEvents]: the docked window is moved out. *)
Lemma moveWindowOut_keeps_registry_witness :
  map WindowData.id
    (windows (moveWindowOut (stateAfter dockEvents) "7" (mkPoint 40 40)))
  = map WindowData.id (windows (stateAfter dockEvents))
  /\ moveWindowOut (stateAfter grabEvents) "7" (mkPoint 40 40)
     = stateAfter grabEvents.
Proof.
  split.
  - apply (moveWindowOut_keeps_registry (stateAfter dockEvents) "7"
             (mkPoint 40 40)).
  - destruct (moveWindowOut_keeps_registry (stateAfter grabEvents) "7"
                (mkPoint 40 40)) as (_ & Hnoop & _).
    eapply Hnoop. right. split; vm_compute; reflexivity.
Defined.

(** X17 on the initial state. *)
Lemma addWindow_then_close_witness :
  closeWindow
    (addWindow (initialState 1000 800) "7" "#abcdef" (mkPoint 100 100)) "7"
  = initialState 1000 800.
Proof.
  apply addWindow_then_close; reflexivity.
Defined.

(** X18 after [edgeHoverEvents]. *)
Lemma indicator_only_while_dragging_witness :
  draggingId (stateAfter edgeHoverEvents) <> None.
Proof.
  apply (indicator_only_while_dragging 1000 800).
  - apply stateAfter_reachable; [generated_all | vm_compute; discriminate].
  - vm_compute. discriminate.
Defined.

(** X19 after [cellHoverEvents]: the right half of the root cell. *)
Lemma snapOverlay_is_new_leaf_witness :
  exists tc,
    findGridCell (gridCells (stateAfter cellHoverEvents)) 990 400
    = Some (Some tc)
    /\ CellHalf 0 (0 + 1000 / 2) (1000 / 2) 800 = cellHighlight tc Right.
Proof.
  destruct (proj2 (snapOverlay_is_new_leaf (stateAfter cellHoverEvents))
              Right (CellHalf 0 (0 + 1000 / 2) (1000 / 2) 800))
    as [E|(tc & Htc & Hh & _)].
  - vm_compute. reflexivity.
  - vm_compute. reflexivity.
  - discriminate E.
  - exists tc. split; [exact Htc | exact Hh].
Defined.

(** X20 after [dockEvents] and the closing of the window: the next
    pointer move returns. *)
Lemma handle_returns_witness :
  exists st',
    handle (stateAfter (dockEvents ++ [CloseWindow "7"]))
      (MouseMove (mkPoint 10 10)) = Some st'.
Proof.
  apply (handle_returns 1000 800).
  exact (reachableUnique_fresh _ _ _ dockClosed_unique).
Defined.
